(** * typescript-json-api: the schema combinators and the validation engine

    A shallow embedding of [src/shared/api.ts]: the JavaScript values the
    validators inspect, the [Schemas] combinators, [API.validateSchema],
    [API.validateSchemaField] and the two [revive] operations; and of its
    callers, the wrapped handler and the registration functions of
    [server/express.ts] and [apiFetch] of [client/client.ts].  The
    properties of the specification and of the code follow. *)

From Stdlib Require Import List String Ascii ZArith Bool.
Import ListNotations.
Local Open Scope string_scope.

Set Implicit Arguments.
#[local] Set Warnings "-register-all".

(** ** JavaScript values *)

(** The values a validator can be handed ([val: any]) or return.
    [JSON.parse] yields [VNull], [VBool], [VNum], [VStr], [VArr] and [VObj];
    [VUndefined] is what reading a missing property gives; [VDate] is what
    [Schemas.date] returns; [VFunction] and [VObjectPrototype] are what
    reading a property inherited from [Object.prototype] gives.

    A plain object is the list of its own enumerable properties in
    enumeration order.  The payload of a number is never inspected by the
    code (only [typeof] is), so an integer stands for it. *)
Inductive value : Type :=
| VUndefined
| VNull
| VBool (b : bool)
| VNum (n : Z)
| VStr (s : string)
| VArr (elems : list value)
| VObj (props : list (string * value))
| VDate (time : Z)
| VFunction (name : string)
| VObjectPrototype.

(** What the code throws: [Error(message)] everywhere in [api.ts], and the
    [SyntaxError] of [JSON.parse]. *)
Inductive exn : Type :=
| Error (message : string)
| SyntaxError (message : string).

(** The result of running a piece of code that may throw. *)
Inductive outcome (T : Type) : Type :=
| Return (v : T)
| Throw (e : exn).

Arguments Return {T} v.
Arguments Throw {T} e.

Definition bind {A B : Type} (a : outcome A) (k : A -> outcome B) : outcome B :=
  match a with
  | Return v => k v
  | Throw e => Throw e
  end.

Notation "x <- a ;; k" := (bind a (fun x => k))
  (at level 61, a at next level, right associativity).

(** [try { a } catch { h }] (the handler of [Schemas.or] binds no variable). *)
Definition try_catch {A : Type} (a : outcome A) (h : outcome A) : outcome A :=
  match a with
  | Return v => Return v
  | Throw _ => h
  end.

(** ** The host operations the code relies on *)

Module JS.

(** [typeof val]. *)
Definition typeof (val : value) : string :=
  match val with
  | VUndefined => "undefined"
  | VNull => "object"
  | VBool _ => "boolean"
  | VNum _ => "number"
  | VStr _ => "string"
  | VArr _ => "object"
  | VObj _ => "object"
  | VDate _ => "object"
  | VFunction _ => "function"
  | VObjectPrototype => "object"
  end.

(** The methods every object inherits from [Object.prototype]. *)
Definition ObjectPrototype_methods : list string :=
  [ "constructor"; "hasOwnProperty"; "isPrototypeOf"; "propertyIsEnumerable";
    "toLocaleString"; "toString"; "valueOf";
    "__defineGetter__"; "__defineSetter__";
    "__lookupGetter__"; "__lookupSetter__" ].

Definition mem (f : string) (l : list string) : bool :=
  existsb (String.eqb f) l.

(** The property names found on [Object.prototype]: its methods and the
    accessor [__proto__]. *)
Definition inherited (f : string) : bool :=
  (f =? "__proto__") || mem f ObjectPrototype_methods.

(** The own property [f] of a property list. *)
Fixpoint own {A : Type} (f : string) (props : list (string * A)) : option A :=
  match props with
  | [] => None
  | (k, v) :: rest => if k =? f then Some v else own f rest
  end.

(** [f in o] for a plain object [o]: an own property, or one inherited
    from [Object.prototype]. *)
Definition has {A : Type} (f : string) (props : list (string * A)) : bool :=
  match own f props with
  | Some _ => true
  | None => inherited f
  end.

(** [obj[f]]: the own property, else the one of [Object.prototype], else
    [undefined].  [Object.prototype.__proto__] is [null]. *)
Definition get (obj : value) (f : string) : value :=
  match obj with
  | VObj props =>
      match own f props with
      | Some v => v
      | None =>
          if f =? "__proto__" then VObjectPrototype
          else if mem f ObjectPrototype_methods then VFunction f
          else VUndefined
      end
  | VObjectPrototype =>
      if f =? "__proto__" then VNull
      else if mem f ObjectPrototype_methods then VFunction f
      else VUndefined
  | _ => VUndefined
  end.

End JS.

(** ** The lodash functions the code calls *)

Module Lodash.

Definition isArray (val : value) : bool :=
  match val with
  | VArr _ => true
  | _ => false
  end.

(** [_.isPlainObject]: an object whose prototype is [Object.prototype] or
    [null]; the latter makes [Object.prototype] itself a plain object. *)
Definition isPlainObject (val : value) : bool :=
  match val with
  | VObj _ => true
  | VObjectPrototype => true
  | _ => false
  end.

(** The elements [_.map] walks. *)
Definition elements (val : value) : list value :=
  match val with
  | VArr elems => elems
  | _ => []
  end.

(** The own enumerable properties [_.forOwn] and [_.mapValues] walk;
    [Object.prototype] has none. *)
Definition entries (val : value) : list (string * value) :=
  match val with
  | VObj props => props
  | _ => []
  end.

(** [_.forOwn(object, iteratee)] with an iteratee that returns nothing or
    throws: the first throw ends the walk. *)
Definition forOwn {A : Type} (object : list (string * A))
           (iteratee : A -> string -> outcome unit) : outcome unit :=
  (fix walk (o : list (string * A)) : outcome unit :=
     match o with
     | [] => Return tt
     | (k, v) :: rest => _ <- iteratee v k ;; walk rest
     end) object.

(** [_.mapValues(object, iteratee)]: a new object with the same keys, each
    bound to what the iteratee returned for it, [undefined] included. *)
Definition mapValues {A : Type} (object : list (string * A))
           (iteratee : A -> string -> outcome value)
  : outcome (list (string * value)) :=
  (fix walk (o : list (string * A)) : outcome (list (string * value)) :=
     match o with
     | [] => Return []
     | (k, v) :: rest =>
         r <- iteratee v k ;;
         rs <- walk rest ;;
         Return ((k, r) :: rs)
     end) object.

(** [_.map(array, iteratee)]. *)
Definition map (array : list value) (iteratee : value -> outcome value)
  : outcome (list value) :=
  (fix walk (a : list value) : outcome (list value) :=
     match a with
     | [] => Return []
     | x :: rest =>
         r <- iteratee x ;;
         rs <- walk rest ;;
         Return (r :: rs)
     end) array.

End Lodash.

(** ** Schemas *)

(** A [SchemaField] is a validation function ([SchemaBase]) or a plain
    object of fields ([SchemaType]).  The functions [Schemas] builds come in
    two kinds: those that never call the child validator they are handed
    ([Base], which holds the function of key and value) and the five that do,
    one constructor each, holding the schemas the closure captured.
    [Neither] is any other value, for which [validateSchemaField] throws. *)
Inductive SchemaField : Type :=
| Base (f : string -> value -> outcome value)
| Optional (schema : SchemaField)
| Values (schema : SchemaField)
| Or (s1 s2 : SchemaField)
| BaseArray (innerType : SchemaField)
| Array (innerType : SchemaField)
| Plain (fields : list (string * SchemaField))
| Neither.

(** [SchemaType<R>]: the own enumerable properties of the schema object, in
    the order JavaScript enumerates them, which is the order [_.mapValues]
    walks: names that are array indices first, in ascending order, then the
    other names in the order they were written.  The schema
    [{ b: ..., 1: ... }] is the list of [1] and [b], in that order. *)
Definition SchemaType : Type := list (string * SchemaField).

Definition ChildValidator : Type := SchemaField -> string -> value -> outcome value.

Definition keyConcat (k f : string) : string :=
  if k =? "" then f else k ++ "." ++ f.

Definition string_of_bool (b : bool) : string :=
  if b then "true" else "false".

Module Schemas.

(** Each function returns the closure it builds.  A test
    [typeof val === "string"] (or ["boolean"]) that is followed by a use of
    the string (the boolean) is a match on the constructor. *)

Definition number : SchemaField :=
  Base (fun key val =>
    if JS.typeof val =? "number" then Return val
    else Throw (Error ("Field " ++ key ++ " must be a number"))).

Record StringOpts : Type := { nonEmpty : option bool }.

Definition string (opts : StringOpts) : SchemaField :=
  Base (fun key val =>
    match val with
    | VStr s =>
        match nonEmpty opts with
        | Some true =>
            if Nat.eqb (String.length s) 0 then
              Throw (Error ("Field " ++ key ++ " cannot be an empty string"))
            else Return val
        | _ => Return val
        end
    | _ => Throw (Error ("Field " ++ key ++ " must be a string"))
    end).

Definition literal (literal : String.string) : SchemaField :=
  Base (fun key val =>
    match val with
    | VStr s =>
        if s =? literal then Return (VStr literal)
        else Throw (Error ("Field " ++ key ++ " must be " ++ literal))
    | _ => Throw (Error ("Field " ++ key ++ " must be " ++ literal))
    end).

Definition nulll : SchemaField :=
  Base (fun key val =>
    match val with
    | VNull => Return VNull
    | _ => Throw (Error ("Field " ++ key ++ " must be null"))
    end).

Record BooleanOpts : Type := { val : option bool }.

Definition boolean (opts : option BooleanOpts) : SchemaField :=
  Base (fun key v =>
    match v with
    | VBool b =>
        match opts with
        | Some {| val := Some want |} =>
            if Bool.eqb b want then Return v
            else Throw (Error ("Field " ++ key ++ " must be " ++ string_of_bool want))
        | _ => Return v
        end
    | _ => Throw (Error ("Field " ++ key ++ " must be a boolean"))
    end).

(** [newDate val] is the time value of [new Date(val)], [None] when it is
    [NaN]; what the host's [Date] accepts is left to the host. *)
Definition date (newDate : value -> option Z) : SchemaField :=
  Base (fun key val =>
    match newDate val with
    | Some t => Return (VDate t)
    | None => Throw (Error ("Field " ++ key ++ " must be a date"))
    end).

(** The bodies of the five closures that call the child validator. *)

Definition optional (schema : SchemaField)
           (key : String.string) (val : value) (validator : ChildValidator)
  : outcome value :=
  match val with
  | VUndefined => Return VUndefined
  | _ => validator schema key val
  end.

Definition values (schema : SchemaField)
           (key : String.string) (val : value) (validator : ChildValidator)
  : outcome value :=
  if negb (Lodash.isPlainObject val) then
    Throw (Error ("Field " ++ key ++ " must be an object"))
  else
    r <- Lodash.mapValues (Lodash.entries val)
           (fun innerVal innerKey => validator schema (keyConcat key innerKey) innerVal) ;;
    Return (VObj r).

Definition or (s1 s2 : SchemaField)
           (key : String.string) (val : value) (validator : ChildValidator)
  : outcome value :=
  try_catch (validator s1 key val) (validator s2 key val).

Definition baseArray (innerType : SchemaField)
           (key : String.string) (val : value) (validator : ChildValidator)
  : outcome value :=
  if negb (Lodash.isArray val) then
    Throw (Error ("Field " ++ key ++ " must be an array"))
  else
    r <- Lodash.map (Lodash.elements val)
           (fun innerVal => validator innerType key innerVal) ;;
    Return (VArr r).

Definition array (innerType : SchemaField)
           (key : String.string) (val : value) (validator : ChildValidator)
  : outcome value :=
  if negb (Lodash.isArray val) then
    Throw (Error ("Field " ++ key ++ " must be an array"))
  else
    r <- Lodash.map (Lodash.elements val)
           (fun innerVal => validator innerType key innerVal) ;;
    Return (VArr r).

End Schemas.

(** ** The empty response *)

Definition EmptyResponseValue : value :=
  VObj [("isEmptyResponse", VBool true)].

(** Use as the response schema for endpoints that have no response data. *)
Definition emptySchema : SchemaType :=
  [("isEmptyResponse", Schemas.boolean (Some {| Schemas.val := Some true |}))].

(** ** The class [API] *)

(** The fields of an [API]; a schema may be [null]. *)
Record API : Type := {
  path : string;
  requestSchema : option SchemaType;
  responseSchema : option SchemaType
}.

(** What [console.error] has printed. *)
Definition console : Type := list string.

Module API.

(** [API.validateSchema] with the field validator it calls left open. *)
Definition validateSchemaWith (validateSchemaField : ChildValidator)
           (schema : option SchemaType) (obj : value) (key : string)
  : outcome value :=
  match schema with
  | None =>
      match obj with
      | VUndefined | VNull => Return VNull
      | _ => Throw (Error ("Object " ++ key ++ " must be null"))
      end
  | Some fields =>
      if negb (Lodash.isPlainObject obj) then
        Throw (Error ("Object " ++ key ++ " must be an object"))
      else
        _ <- Lodash.forOwn (Lodash.entries obj)
               (fun _v field =>
                  if negb (JS.has field fields) then
                    Throw (Error ("Extraneous field " ++ field))
                  else Return tt) ;;
        r <- Lodash.mapValues fields
               (fun s f => validateSchemaField s (keyConcat key f) (JS.get obj f)) ;;
        Return (VObj r)
  end.

(** [API.validateSchemaField], which hands itself to the closures as their
    child validator.  Every call it receives back is on a schema the closure
    captured, so the recursion is structural in the schema. *)
Fixpoint validateSchemaField (schema : SchemaField) (key : string) (val : value)
  {struct schema} : outcome value :=
  match schema with
  | Base f => f key val
  | Optional s => Schemas.optional s key val validateSchemaField
  | Values s => Schemas.values s key val validateSchemaField
  | Or s1 s2 => Schemas.or s1 s2 key val validateSchemaField
  | BaseArray t => Schemas.baseArray t key val validateSchemaField
  | Array t => Schemas.array t key val validateSchemaField
  | Plain fields => validateSchemaWith validateSchemaField (Some fields) val key
  | Neither => Throw (Error "impossible for schema to be neither")
  end.

Definition validateSchema : option SchemaType -> value -> string -> outcome value :=
  validateSchemaWith validateSchemaField.

(** The host's [JSON.parse] and [JSON.stringify] are parameters.  The lines
    [console.error] prints are returned with the result. *)
Section Revive.

Variable JSON_parse : string -> outcome value.
Variable JSON_stringify : value -> string.

Definition reviveRequest (this : API) (request : string) : console * outcome value :=
  let request :=
    if request =? "" then JSON_stringify EmptyResponseValue else request in
  match obj <- JSON_parse request ;; validateSchema (requestSchema this) obj "" with
  | Return v => ([], Return v)
  | Throw e => (["Schema validation failed for request " ++ path this], Throw e)
  end.

Definition reviveResponse (this : API) (response : string) : console * outcome value :=
  let response :=
    if response =? "" then JSON_stringify EmptyResponseValue else response in
  match obj <- JSON_parse response ;; validateSchema (responseSchema this) obj "" with
  | Return v => ([], Return v)
  | Throw e => (["Schema validation failed for response " ++ path this], Throw e)
  end.

End Revive.

End API.

(** ** Schemas and inputs used in the statements below *)

Module Examples.

(** [{ name: string({nonEmpty: true}), age: optional(number()) }] *)
Definition person : SchemaType :=
  [ ("name", Schemas.string {| Schemas.nonEmpty := Some true |});
    ("age", Optional Schemas.number) ].

(** [{"name": "Ann"}] *)
Definition ann : value := VObj [("name", VStr "Ann")].

(** [{ a: { b: number() } }] *)
Definition nested : SchemaType :=
  [ ("a", Plain [("b", Schemas.number)]) ].

(** [{ isEmptyResponse: boolean() }]: the field of [emptySchema] without
    the pinned value. *)
Definition anyFlag : SchemaType :=
  [ ("isEmptyResponse", Schemas.boolean None) ].

(** [{ constructor: optional(string()) }] *)
Definition ctor : SchemaType :=
  [ ("constructor", Optional (Schemas.string {| Schemas.nonEmpty := None |})) ].

(** [{ b: number(), 1: string() }]: the name [1] is an array index, so the
    object enumerates it before [b]. *)
Definition indexed : SchemaType :=
  [ ("1", Schemas.string {| Schemas.nonEmpty := None |});
    ("b", Schemas.number) ].

(** The double quote. *)
Definition quote : string := String (ascii_of_nat 34) "".

(** The JSON text of [EmptyResponseValue]. *)
Definition sentinelText : string :=
  "{" ++ quote ++ "isEmptyResponse" ++ quote ++ ":true}".

(** A host whose [JSON.parse] knows one text, that of the empty-response
    value, and rejects every other, and whose [JSON.stringify] writes that
    text. *)
Definition parseSentinel (text : string) : outcome value :=
  if text =? sentinelText then Return EmptyResponseValue
  else Throw (SyntaxError "Unexpected token").

Definition stringifySentinel (_ : value) : string := sentinelText.

(** An endpoint without payload in either direction. *)
Definition ping : API :=
  {| path := "/ping";
     requestSchema := Some emptySchema;
     responseSchema := Some emptySchema |}.

(** An endpoint whose schemas are not [emptySchema]. *)
Definition flag : API :=
  {| path := "/flag";
     requestSchema := Some anyFlag;
     responseSchema := Some anyFlag |}.

End Examples.

(** ** Conformance of a value to a schema *)

(** The schemas built from the combinators of [Schemas] other than [date],
    and plain objects of such schemas. *)
Inductive combinator_schema : SchemaField -> Prop :=
| cs_number : combinator_schema Schemas.number
| cs_string opts : combinator_schema (Schemas.string opts)
| cs_literal l : combinator_schema (Schemas.literal l)
| cs_nulll : combinator_schema Schemas.nulll
| cs_boolean opts : combinator_schema (Schemas.boolean opts)
| cs_optional T : combinator_schema T -> combinator_schema (Optional T)
| cs_values T : combinator_schema T -> combinator_schema (Values T)
| cs_or A B : combinator_schema A -> combinator_schema B -> combinator_schema (Or A B)
| cs_baseArray T : combinator_schema T -> combinator_schema (BaseArray T)
| cs_array T : combinator_schema T -> combinator_schema (Array T)
| cs_plain fields :
    (forall f s, In (f, s) fields -> combinator_schema s) ->
    combinator_schema (Plain fields).

(** The field [f] of a JSON object, [VUndefined] standing for "absent". *)
Definition field (f : string) (props : list (string * value)) : value :=
  match JS.own f props with
  | Some v => v
  | None => VUndefined
  end.

(** [conforms S v]: the value [v] has the shape and the types [S] describes.
    An object conforms to a plain schema when each of its keys is declared
    and each declared field, absent ones included, conforms to its schema;
    only [optional] admits an absent field. *)
Inductive conforms : SchemaField -> value -> Prop :=
| conforms_number n : conforms Schemas.number (VNum n)
| conforms_string opts s :
    (Schemas.nonEmpty opts = Some true -> s <> "") ->
    conforms (Schemas.string opts) (VStr s)
| conforms_literal l : conforms (Schemas.literal l) (VStr l)
| conforms_nulll : conforms Schemas.nulll VNull
| conforms_boolean opts b :
    (forall want, opts = Some {| Schemas.val := Some want |} -> b = want) ->
    conforms (Schemas.boolean opts) (VBool b)
| conforms_absent T : conforms (Optional T) VUndefined
| conforms_present T v : v <> VUndefined -> conforms T v -> conforms (Optional T) v
| conforms_values T props :
    (forall k x, In (k, x) props -> conforms T x) ->
    conforms (Values T) (VObj props)
| conforms_or_first A B v : conforms A v -> conforms (Or A B) v
| conforms_or_second A B v : conforms B v -> conforms (Or A B) v
| conforms_baseArray T elems :
    (forall x, In x elems -> conforms T x) ->
    conforms (BaseArray T) (VArr elems)
| conforms_array T elems :
    (forall x, In x elems -> conforms T x) ->
    conforms (Array T) (VArr elems)
| conforms_plain fields props :
    (forall k x, In (k, x) props -> JS.own k fields <> None) ->
    (forall f s, In (f, s) fields -> conforms s (field f props)) ->
    conforms (Plain fields) (VObj props).

(** No declared field of the schema bears the name of a member of
    [Object.prototype]. *)
Fixpoint ordinary_names (S : SchemaField) : bool :=
  match S with
  | Base _ => true
  | Optional s => ordinary_names s
  | Values s => ordinary_names s
  | Or s1 s2 => ordinary_names s1 && ordinary_names s2
  | BaseArray t => ordinary_names t
  | Array t => ordinary_names t
  | Plain fields =>
      (fix all (l : list (string * SchemaField)) : bool :=
         match l with
         | [] => true
         | (f, s) :: rest => negb (JS.inherited f) && ordinary_names s && all rest
         end) fields
  | Neither => true
  end.

(** The values [JSON.parse] can return. *)
Fixpoint JSON_value (v : value) : bool :=
  match v with
  | VNull | VBool _ | VNum _ | VStr _ => true
  | VArr elems =>
      (fix all (l : list value) : bool :=
         match l with
         | [] => true
         | x :: rest => JSON_value x && all rest
         end) elems
  | VObj props =>
      (fix all (l : list (string * value)) : bool :=
         match l with
         | [] => true
         | (_, x) :: rest => JSON_value x && all rest
         end) props
  | _ => false
  end.

(** No key of the value, at any depth, bears the name of a member of
    [Object.prototype]. *)
Fixpoint ordinary_keys (v : value) : bool :=
  match v with
  | VArr elems =>
      (fix all (l : list value) : bool :=
         match l with
         | [] => true
         | x :: rest => ordinary_keys x && all rest
         end) elems
  | VObj props =>
      (fix all (l : list (string * value)) : bool :=
         match l with
         | [] => true
         | (k, x) :: rest => negb (JS.inherited k) && ordinary_keys x && all rest
         end) props
  | _ => true
  end.

(** [same_reads r v]: no chain of property reads and array indexings tells
    [r] from [v].  A key bound to [undefined] reads like a missing key. *)
Inductive same_reads : value -> value -> Prop :=
| same_value v : same_reads v v
| same_array xs ys : Forall2 same_reads xs ys -> same_reads (VArr xs) (VArr ys)
| same_object ps qs :
    (forall k, same_reads (JS.get (VObj ps) k) (JS.get (VObj qs) k)) ->
    same_reads (VObj ps) (VObj qs).

(** ** Paths and the errors of the engine *)

(** [reaches S v key S' v' p]: validating [v] against [S] at the path [key]
    can hand the part [v'] of the value to the schema [S'] at the path [p],
    and what [S'] throws for it is not caught on the way.  A plain object
    none of whose keys is extraneous hands each declared field what the
    object reads at its name, at the path extended by the name; [values] hands each own property of the object on,
    at the path extended by its key; [array] and [baseArray] hand each
    element on at the path of the array itself; [optional] hands a value
    other than [undefined] on; [or] catches what its first alternative
    throws, and hands the value to the second once the first has thrown. *)
Inductive reaches :
  SchemaField -> value -> string -> SchemaField -> value -> string -> Prop :=
| reach_here S v key : reaches S v key S v key
| reach_optional T v key S' v' p :
    v <> VUndefined ->
    reaches T v key S' v' p ->
    reaches (Optional T) v key S' v' p
| reach_values T props key k x S' v' p :
    In (k, x) props ->
    reaches T x (keyConcat key k) S' v' p ->
    reaches (Values T) (VObj props) key S' v' p
| reach_or_second A B v key eA S' v' p :
    API.validateSchemaField A key v = Throw eA ->
    reaches B v key S' v' p ->
    reaches (Or A B) v key S' v' p
| reach_baseArray T elems key x S' v' p :
    In x elems ->
    reaches T x key S' v' p ->
    reaches (BaseArray T) (VArr elems) key S' v' p
| reach_array T elems key x S' v' p :
    In x elems ->
    reaches T x key S' v' p ->
    reaches (Array T) (VArr elems) key S' v' p
| reach_plain fields v key f s S' v' p :
    Lodash.isPlainObject v = true ->
    (forall k x, In (k, x) (Lodash.entries v) -> JS.has k fields = true) ->
    In (f, s) fields ->
    reaches s (JS.get v f) (keyConcat key f) S' v' p ->
    reaches (Plain fields) v key S' v' p.

(** [own_error S v p e]: the error [e] is one that the schema [S] itself
    throws for the value [v] at the path [p], before it hands any part of
    [v] on.  The messages have four shapes: "Field p must be ...", "Field p
    cannot be an empty string", "Object p must be an object" and
    "Extraneous field k", the last without a path. *)
Inductive own_error : SchemaField -> value -> string -> exn -> Prop :=
| err_number v p :
    JS.typeof v <> "number" ->
    own_error Schemas.number v p (Error ("Field " ++ p ++ " must be a number"))
| err_string opts v p :
    (forall s, v <> VStr s) ->
    own_error (Schemas.string opts) v p (Error ("Field " ++ p ++ " must be a string"))
| err_empty_string opts s p :
    Schemas.nonEmpty opts = Some true ->
    String.length s = 0 ->
    own_error (Schemas.string opts) (VStr s) p
      (Error ("Field " ++ p ++ " cannot be an empty string"))
| err_literal l v p :
    v <> VStr l ->
    own_error (Schemas.literal l) v p (Error ("Field " ++ p ++ " must be " ++ l))
| err_nulll v p :
    v <> VNull ->
    own_error Schemas.nulll v p (Error ("Field " ++ p ++ " must be null"))
| err_boolean opts v p :
    (forall b, v <> VBool b) ->
    own_error (Schemas.boolean opts) v p (Error ("Field " ++ p ++ " must be a boolean"))
| err_boolean_val want b p :
    b <> want ->
    own_error (Schemas.boolean (Some {| Schemas.val := Some want |})) (VBool b) p
      (Error ("Field " ++ p ++ " must be " ++ string_of_bool want))
| err_values T v p :
    Lodash.isPlainObject v = false ->
    own_error (Values T) v p (Error ("Field " ++ p ++ " must be an object"))
| err_baseArray T v p :
    Lodash.isArray v = false ->
    own_error (BaseArray T) v p (Error ("Field " ++ p ++ " must be an array"))
| err_array T v p :
    Lodash.isArray v = false ->
    own_error (Array T) v p (Error ("Field " ++ p ++ " must be an array"))
| err_object fields v p :
    Lodash.isPlainObject v = false ->
    own_error (Plain fields) v p (Error ("Object " ++ p ++ " must be an object"))
| err_extraneous fields v p k x :
    Lodash.isPlainObject v = true ->
    In (k, x) (Lodash.entries v) ->
    JS.has k fields = false ->
    own_error (Plain fields) v p (Error ("Extraneous field " ++ k)).

(** A value without objects: [undefined], a scalar, or an array of such
    values. *)
Fixpoint object_free (v : value) : bool :=
  match v with
  | VUndefined | VNull | VBool _ | VNum _ | VStr _ => true
  | VArr elems =>
      (fix all (l : list value) : bool :=
         match l with
         | [] => true
         | x :: rest => object_free x && all rest
         end) elems
  | _ => false
  end.

(** The text [reviveRequest] and [reviveResponse] hand to [JSON.parse]: the
    one given, or that of the empty-response value for the empty text. *)
Definition parsedText (JSON_stringify : value -> string) (text : string) : string :=
  if text =? "" then JSON_stringify EmptyResponseValue else text.

(** * The callers of [api.ts] *)

(** ** Completions *)

(** What the callers throw, or a promise is rejected with: an error of
    [api.ts], the [TypeError] of the host (its message is the host's), an
    [APIError] of the client, given by the arguments of its constructor, or
    any other value. *)
Inductive reason : Type :=
| Thrown (e : exn)
| TypeError
| APIError (status : Z) (message : option value)
| Other (v : value).

(** How a call ends, or a promise settles: normally (fulfilled) with a
    value, or abruptly (rejected) with a reason.  A promise that never
    settles has no completion. *)
Inductive completion (T : Type) : Type :=
| Normal (v : T)
| Abrupt (r : reason).

Arguments Normal {T} v.
Arguments Abrupt {T} r.

(** A promise as the code that waits for it sees it: settled, fulfilled or
    rejected, or never settled, in which case no callback of [then] or
    [catch] ever runs. *)
Inductive promise (T : Type) : Type :=
| Settled (c : completion T)
| Pending.

Arguments Settled {T} c.
Arguments Pending {T}.

(** [if (v)]: the values that count as true. *)
Definition truthy (v : value) : bool :=
  match v with
  | VUndefined | VNull => false
  | VBool b => b
  | VNum n => negb (n =? 0)%Z
  | VStr s => negb (s =? "")
  | _ => true
  end.

(** [v == null]. *)
Definition isNullish (v : value) : bool :=
  match v with
  | VUndefined | VNull => true
  | _ => false
  end.

(** An [API] object as the callers see it: its fields, and whether its
    [responseSchema] is the object [emptySchema] itself, which is what
    [api.responseSchema == emptySchema] compares. *)
Record Endpoint : Type := {
  api : API;
  responseIsEmptySchema : bool
}.

(** ** [server/express.ts] *)

Module Express.

(** The calls made on the response: [res.sendStatus(statusCode)] and
    [res.status(code).send(body)]. *)
Inductive call : Type :=
| sendStatus (statusCode : value)
| status_send (code : value) (body : value).

(** A call of [console.error], with the error it was given, if any. *)
Inductive printed : Type :=
| Line (text : string)
| LineWith (text : string) (r : reason).

(** What running the wrapped handler on a request does: the lines printed,
    the calls made on the response, and what escaped uncaught, if
    anything. *)
Record run : Type := {
  out : list printed;
  calls : list call;
  uncaught : option reason
}.

(** ['code' in r && 'message' in r].  [in] throws a [TypeError] when [r] is
    not an object; neither name is a member of a prototype. *)
Definition isErrorResponse (r : value) : completion bool :=
  match r with
  | VObj props => Normal (JS.has "code" props && JS.has "message" props)
  | VArr _ | VDate _ | VFunction _ | VObjectPrototype => Normal false
  | VUndefined | VNull | VBool _ | VNum _ | VStr _ => Abrupt TypeError
  end.

(** The callback of [then]: what is done with the value the handler's
    promise is fulfilled with. *)
Definition respond (this : Endpoint) (apiResponse : value) : completion (list call) :=
  if JS.typeof apiResponse =? "number" then
    Normal [sendStatus apiResponse]
  else if isNullish apiResponse then
    if negb (responseIsEmptySchema this) then
      Abrupt (Thrown (Error ("handler returned null, but " ++ path (api this)
                             ++ " requires a response")))
    else Normal [sendStatus (VNum 204)]
  else
    match isErrorResponse apiResponse with
    | Abrupt r => Abrupt r
    | Normal true =>
        Normal [status_send (JS.get apiResponse "code")
                  (VObj [("error", JS.get apiResponse "message")])]
    | Normal false => Normal [status_send (VNum 200) apiResponse]
    end.

Section Server.

(** The request of Express, of which the code reads [body] (handed to
    [reviveRequest], which takes a string) and, in the passport extractor,
    [user]; and the middleware of Express, which the code only passes on. *)
Variable ExpressRequest : Type.
Variable req_body : ExpressRequest -> string.
Variable req_user : ExpressRequest -> value.
Variable ExpressHandler : Type.

Variable JSON_parse : string -> outcome value.
Variable JSON_stringify : value -> string.

(** A handler, by how the call [handler(apiRequest, user)] ends: it returns
    a promise, or throws before it has one to return (an [async] function
    never does, a plain function that returns a promise can). *)
Definition Handler : Type := value -> value -> completion (promise value).

Definition UserExtractor : Type := ExpressRequest -> completion value.

(** The function [wrap] returns, run on a request.  Only the revival of the
    request is inside a [try]: what the user extractor or the call of the
    handler throws escapes, and nothing is done for a promise that never
    settles.  The calls on the response are taken to return. *)
Definition wrap (this : Endpoint) (handler : Handler)
           (userExtractor : option UserExtractor) (req : ExpressRequest) : run :=
  match API.reviveRequest JSON_parse JSON_stringify (api this) (req_body req) with
  | (lines, Throw e) =>
      {| out := (List.map Line lines
                 ++ [LineWith "Parsing request failed" (Thrown e)])%list;
         calls := [status_send (VNum 400)
                     (VObj [("error", VStr "Parsing request failed")])];
         uncaught := None |}
  | (lines, Return apiRequest) =>
      match match userExtractor with
            | Some extractor => extractor req
            | None => Normal VNull
            end with
      | Abrupt r => {| out := List.map Line lines; calls := []; uncaught := Some r |}
      | Normal user =>
          match handler apiRequest user with
          | Abrupt r => {| out := List.map Line lines; calls := []; uncaught := Some r |}
          | Normal Pending =>
              {| out := List.map Line lines; calls := []; uncaught := None |}
          | Normal (Settled settled) =>
              match match settled with
                    | Normal apiResponse => respond this apiResponse
                    | Abrupt err => Abrupt err
                    end with
              | Normal done =>
                  {| out := List.map Line lines; calls := done; uncaught := None |}
              | Abrupt err =>
                  {| out := (List.map Line lines ++ [LineWith "Error (caught)" err])%list;
                     calls := [status_send (VNum 500)
                                 (VObj [("error", VStr "internal server error")])];
                     uncaught := None |}
              end
          end
      end
  end.

(** The two variables of the module. *)
Record state : Type := {
  userExtractor : option UserExtractor;
  middleware : list ExpressHandler
}.

Definition initial : state := {| userExtractor := None; middleware := [] |}.

Definition registerUserExtractor (extractor : UserExtractor) (st : state) : state :=
  {| userExtractor := Some extractor; middleware := middleware st |}.

Definition registerPassportUserExtractor (st : state) : state :=
  registerUserExtractor (fun req => Normal (req_user req)) st.

Definition registerMiddleware (m : ExpressHandler) (st : state) : state :=
  {| userExtractor := userExtractor st; middleware := (middleware st ++ [m])%list |}.

(** What [app.post] is given after the path: middleware, and last the
    function [wrap] returns, by what it captured. *)
Inductive routeHandler : Type :=
| Middleware (m : ExpressHandler)
| Wrapped (this : Endpoint) (handler : Handler) (extractor : option UserExtractor).

(** The routes of the Express app, in the order of the calls of [app.post]. *)
Definition App : Type := list (string * list routeHandler).

Definition register (app : App) (this : Endpoint) (handler : Handler)
           (middlewares : list ExpressHandler) (st : state) : App :=
  (app ++ [(path (api this),
            List.map Middleware (middleware st)
            ++ List.map Middleware middlewares
            ++ [Wrapped this handler (userExtractor st)])])%list.

(** A program using the module: its calls, in order. *)
Inductive command : Type :=
| RegisterUserExtractor (extractor : UserExtractor)
| RegisterPassportUserExtractor
| RegisterMiddleware (m : ExpressHandler)
| Register (this : Endpoint) (handler : Handler) (middlewares : list ExpressHandler).

Definition step (c : command) (s : state * App) : state * App :=
  match c with
  | RegisterUserExtractor extractor => (registerUserExtractor extractor (fst s), snd s)
  | RegisterPassportUserExtractor => (registerPassportUserExtractor (fst s), snd s)
  | RegisterMiddleware m => (registerMiddleware m (fst s), snd s)
  | Register this handler middlewares =>
      (fst s, register (snd s) this handler middlewares (fst s))
  end.

Definition exec (cs : list command) (s : state * App) : state * App :=
  fold_left (fun s c => step c s) cs s.

(** The middleware a program registers, in order, and the user extractor it
    registers last. *)
Definition middleware_of (cs : list command) : list ExpressHandler :=
  flat_map (fun c => match c with RegisterMiddleware m => [m] | _ => [] end) cs.

Definition extractor_of (cs : list command) : option UserExtractor :=
  fold_left
    (fun last c =>
       match c with
       | RegisterUserExtractor extractor => Some extractor
       | RegisterPassportUserExtractor => Some (fun req => Normal (req_user req))
       | _ => last
       end) cs None.

End Server.

End Express.

(** ** [client/client.ts] (the copy that throws [APIError]) *)

Module Client.

(** What [fetch] resolves to, as far as the code reads it: the status, and
    the promises [result.json()] and [result.text()]. *)
Record FetchResult : Type := {
  status : Z;
  json : completion value;
  text : completion string
}.

(** What a call of [apiFetch] does: how often the reauthentication handler
    ran, what [console.error] printed, and how the promise settles. *)
Record run : Type := {
  reauthCalls : nat;
  out : console;
  result : completion value
}.

(** [r.error]: a [TypeError] on [null] and [undefined]; [error] is no member
    of a prototype. *)
Definition error_of (r : value) : completion value :=
  if isNullish r then Abrupt TypeError else Normal (JS.get r "error").

Section Fetch.

Variable JSON_parse : string -> outcome value.
Variable JSON_stringify : value -> string.

(** [fetch(url, { method: 'POST', headers, body })], by url and body. *)
Variable fetch : string -> option string -> completion FetchResult.

Definition rejected (reauth : nat) (r : reason) : run :=
  {| reauthCalls := reauth; out := []; result := Abrupt r |}.

(** The call of [fetch]: the body is sent when it is given. *)
Definition fetched (this : Endpoint) (body : value) : completion FetchResult :=
  fetch (path (api this)) (if truthy body then Some (JSON_stringify body) else None).

(** [apiFetch({ api, body })]; [body] is [VUndefined] when left out, and
    [onReauth] is the handler last registered, by how a call of it ends. *)
Definition apiFetch (this : Endpoint) (body : value)
           (onReauth : option (completion unit)) : run :=
  match fetched this body with
  | Abrupt r => rejected 0 r
  | Normal result =>
      if responseIsEmptySchema this && (status result =? 204)%Z then
        {| reauthCalls := 0; out := []; result := Normal VNull |}
      else if (status result =? 204)%Z then
        rejected 0
          (APIError (status result)
             (Some (VStr ("Received a 204 but required a response for "
                          ++ path (api this)))))
      else
        match (if (status result =? 401)%Z then onReauth else None) with
        | Some (Abrupt r) => rejected 1 r
        | Some (Normal _) =>
            rejected 1 (APIError (status result) (Some (VStr "Reauth required")))
        | None =>
            if negb (status result =? 200)%Z then
              match json result with
              | Abrupt _ => rejected 0 (APIError (status result) None)
              | Normal r =>
                  match error_of r with
                  | Abrupt t => rejected 0 t
                  | Normal err =>
                      if truthy err then
                        rejected 0 (APIError (status result) (Some err))
                      else rejected 0 (APIError (status result) None)
                  end
              end
            else if responseIsEmptySchema this then
              rejected 0
                (APIError (status result)
                   (Some (VStr ("Unexpected response for " ++ path (api this)))))
            else
              match text result with
              | Abrupt r => rejected 0 r
              | Normal t =>
                  match API.reviveResponse JSON_parse JSON_stringify (api this) t with
                  | (lines, Return v) =>
                      {| reauthCalls := 0; out := lines; result := Normal v |}
                  | (lines, Throw e) =>
                      {| reauthCalls := 0; out := lines; result := Abrupt (Thrown e) |}
                  end
              end
        end
  end.

End Fetch.

End Client.

(** ** Endpoints, handlers and responses used in the statements below *)

Module CallerExamples.

(** An endpoint whose response schema is [emptySchema] itself. *)
Definition ping : Endpoint :=
  {| api := Examples.ping; responseIsEmptySchema := true |}.

(** An endpoint whose response schema is another object. *)
Definition flag : Endpoint :=
  {| api := Examples.flag; responseIsEmptySchema := false |}.

(** A handler whose response has the keys [code] and [message]. *)
Definition gone : Express.Handler :=
  fun _ _ =>
    Normal (Settled (Normal (VObj [("code", VNum 410); ("message", VStr "gone")]))).

(** A handler that throws before it returns a promise. *)
Definition throws : Express.Handler :=
  fun _ _ => Abrupt (Other (VStr "not ready")).

(** A handler whose promise is rejected. *)
Definition rejects : Express.Handler :=
  fun _ _ => Normal (Settled (Abrupt (Other (VStr "not ready")))).

(** A handler whose promise never settles. *)
Definition hangs : Express.Handler :=
  fun _ _ => Normal Pending.

(** A server that answers 200 with the text of the empty-response value. *)
Definition answers200 (_ : string) (_ : option string)
  : completion Client.FetchResult :=
  Normal {| Client.status := 200;
            Client.json := Normal EmptyResponseValue;
            Client.text := Normal Examples.sentinelText |}.

End CallerExamples.

(** * Properties *)

Unset Implicit Arguments.

(** ** The outcome of the lodash walks *)

Section Walks.

Variable A : Type.

Lemma map_nil (f : value -> outcome value) : Lodash.map [] f = Return [].
Proof. reflexivity. Qed.

Lemma map_cons (f : value -> outcome value) x rest :
  Lodash.map (x :: rest) f =
    (r <- f x ;; rs <- Lodash.map rest f ;; Return (r :: rs)).
Proof. reflexivity. Qed.

Lemma mapValues_nil (g : A -> string -> outcome value) :
  Lodash.mapValues [] g = Return [].
Proof. reflexivity. Qed.

Lemma mapValues_cons (g : A -> string -> outcome value) k v rest :
  Lodash.mapValues ((k, v) :: rest) g =
    (r <- g v k ;; rs <- Lodash.mapValues rest g ;; Return ((k, r) :: rs)).
Proof. reflexivity. Qed.

Lemma forOwn_nil (it : A -> string -> outcome unit) :
  Lodash.forOwn [] it = Return tt.
Proof. reflexivity. Qed.

Lemma forOwn_cons (it : A -> string -> outcome unit) k v rest :
  Lodash.forOwn ((k, v) :: rest) it = (_ <- it v k ;; Lodash.forOwn rest it).
Proof. reflexivity. Qed.

(** [_.map] returns the results in order when every call returns. *)
Lemma map_Return (f : value -> outcome value) l rs :
  Forall2 (fun x r => f x = Return r) l rs -> Lodash.map l f = Return rs.
Proof.
  induction 1 as [|x r l rs Hx _ IH].
  - reflexivity.
  - rewrite map_cons, Hx, IH. reflexivity.
Qed.

(** [_.map] stops at the first call that throws. *)
Lemma map_Throw (f : value -> outcome value) pre rs x e post :
  Forall2 (fun y r => f y = Return r) pre rs ->
  f x = Throw e ->
  Lodash.map (pre ++ x :: post)%list f = Throw e.
Proof.
  intros Hpre Hx. induction Hpre as [|y r pre rs Hy _ IH]; simpl app.
  - rewrite map_cons, Hx. reflexivity.
  - rewrite map_cons, Hy, IH. reflexivity.
Qed.

Lemma map_Return_inv (f : value -> outcome value) l rs :
  Lodash.map l f = Return rs -> Forall2 (fun x r => f x = Return r) l rs.
Proof.
  revert rs. induction l as [|x l IH]; intros rs H.
  - rewrite map_nil in H. inversion H. constructor.
  - rewrite map_cons in H.
    destruct (f x) as [r|e] eqn:Hx; simpl in H; [|discriminate].
    destruct (Lodash.map l f) as [rs'|e] eqn:Hl; simpl in H; [|discriminate].
    inversion H; subst. constructor; auto.
Qed.

Lemma map_Throw_inv (f : value -> outcome value) l e :
  Lodash.map l f = Throw e ->
  exists pre rs x post,
    l = (pre ++ x :: post)%list /\
    Forall2 (fun y r => f y = Return r) pre rs /\
    f x = Throw e.
Proof.
  induction l as [|x l IH]; intros H.
  - rewrite map_nil in H. discriminate.
  - rewrite map_cons in H.
    destruct (f x) as [r|e'] eqn:Hx; simpl in H.
    + destruct (Lodash.map l f) as [rs'|e''] eqn:Hl; simpl in H; [discriminate|].
      inversion H; subst e''.
      destruct (IH eq_refl) as (pre & rs & y & post & -> & Hpre & Hy).
      exists (x :: pre), (r :: rs), y, post. repeat split; auto.
    + inversion H; subst e'.
      exists [], [], x, l. repeat split; auto.
Qed.

(** [_.mapValues] returns when the iteratee returns for every property. *)
Lemma mapValues_total (g : A -> string -> outcome value) o :
  (forall k v, In (k, v) o -> exists r, g v k = Return r) ->
  exists rs, Lodash.mapValues o g = Return rs.
Proof.
  induction o as [|[k v] o IH]; intros H.
  - exists []. reflexivity.
  - destruct (H k v (or_introl eq_refl)) as [r Hr].
    destruct IH as [rs Hrs]. { intros; apply H; right; assumption. }
    exists ((k, r) :: rs). rewrite mapValues_cons, Hr, Hrs. reflexivity.
Qed.

(** The object [_.mapValues] returns has the keys of its argument, in the
    same order. *)
Lemma mapValues_keys (g : A -> string -> outcome value) o rs :
  Lodash.mapValues o g = Return rs -> List.map fst rs = List.map fst o.
Proof.
  revert rs. induction o as [|[k v] o IH]; intros rs H.
  - rewrite mapValues_nil in H. inversion H. reflexivity.
  - rewrite mapValues_cons in H.
    destruct (g v k) as [r|e]; simpl in H; [|discriminate].
    destruct (Lodash.mapValues o g) as [rs'|e]; simpl in H; [|discriminate].
    inversion H; subst. simpl. f_equal. apply IH. reflexivity.
Qed.

(** Each property of the result is what the iteratee returned for it. *)
Lemma mapValues_In (g : A -> string -> outcome value) o rs k v :
  Lodash.mapValues o g = Return rs ->
  In (k, v) o -> exists r, g v k = Return r /\ In (k, r) rs.
Proof.
  revert rs. induction o as [|[k' v'] o IH]; intros rs H Hin.
  - destruct Hin.
  - rewrite mapValues_cons in H.
    destruct (g v' k') as [r|e] eqn:Hr; simpl in H; [|discriminate].
    destruct (Lodash.mapValues o g) as [rs'|e]; simpl in H; [|discriminate].
    inversion H; subst. destruct Hin as [Heq|Hin].
    + inversion Heq; subst. exists r. split; [assumption|left; reflexivity].
    + destruct (IH rs' eq_refl Hin) as (r' & Hr' & Hin').
      exists r'. split; [assumption|right; assumption].
Qed.

(** Reading a key of the result. *)
Lemma mapValues_own (g : A -> string -> outcome value) o rs k :
  Lodash.mapValues o g = Return rs ->
  match JS.own k o with
  | Some v => exists r, g v k = Return r /\ JS.own k rs = Some r
  | None => JS.own k rs = None
  end.
Proof.
  revert rs. induction o as [|[k' v'] o IH]; intros rs H.
  - rewrite mapValues_nil in H. inversion H. reflexivity.
  - rewrite mapValues_cons in H.
    destruct (g v' k') as [r|e] eqn:Hr; simpl in H; [|discriminate].
    destruct (Lodash.mapValues o g) as [rs'|e]; simpl in H; [|discriminate].
    inversion H; subst. simpl.
    destruct (k' =? k) eqn:Hk.
    + apply String.eqb_eq in Hk. subst k'. exists r. split; auto.
    + apply IH. reflexivity.
Qed.

(** [_.forOwn] returns when the iteratee returns for every property. *)
Lemma forOwn_Return (it : A -> string -> outcome unit) o :
  (forall k v, In (k, v) o -> it v k = Return tt) ->
  Lodash.forOwn o it = Return tt.
Proof.
  induction o as [|[k v] o IH]; intros H.
  - reflexivity.
  - rewrite forOwn_cons, (H k v (or_introl eq_refl)). simpl.
    apply IH. intros; apply H; right; assumption.
Qed.

Lemma forOwn_Return_inv (it : A -> string -> outcome unit) o u k v :
  Lodash.forOwn o it = Return u -> In (k, v) o -> exists u', it v k = Return u'.
Proof.
  induction o as [|[k' v'] o IH]; intros H Hin.
  - destruct Hin.
  - rewrite forOwn_cons in H.
    destruct (it v' k') as [u'|e] eqn:Hit; simpl in H; [|discriminate].
    destruct Hin as [Heq|Hin].
    + inversion Heq; subst. exists u'. assumption.
    + apply IH; assumption.
Qed.

(** [_.forOwn] stops at the first property for which the iteratee throws. *)
Lemma forOwn_Throw (it : A -> string -> outcome unit) pre k v post e :
  (forall k' v', In (k', v') pre -> exists u, it v' k' = Return u) ->
  it v k = Throw e ->
  Lodash.forOwn (pre ++ (k, v) :: post)%list it = Throw e.
Proof.
  intros Hpre Hk. induction pre as [|[k' v'] pre IH]; simpl app.
  - rewrite forOwn_cons, Hk. reflexivity.
  - rewrite forOwn_cons.
    destruct (Hpre k' v' (or_introl eq_refl)) as [u ->]. simpl.
    apply IH. intros; apply Hpre; right; assumption.
Qed.

End Walks.

(** ** Reading properties *)

Lemma own_In (A : Type) (f : string) (props : list (string * A)) v :
  JS.own f props = Some v -> In (f, v) props.
Proof.
  induction props as [|[k x] props IH]; simpl; intros H.
  - discriminate.
  - destruct (k =? f) eqn:Hk.
    + apply String.eqb_eq in Hk. inversion H; subst. left; reflexivity.
    + right; auto.
Qed.

Lemma own_None (A : Type) (f : string) (props : list (string * A)) v :
  JS.own f props = None -> ~ In (f, v) props.
Proof.
  induction props as [|[k x] props IH]; simpl; intros H Hin.
  - assumption.
  - destruct (k =? f) eqn:Hk; [discriminate|].
    destruct Hin as [Heq|Hin].
    + inversion Heq; subst. rewrite String.eqb_refl in Hk. discriminate.
    + exact (IH H Hin).
Qed.

(** The engine, one step unfolded. *)
Lemma validateSchemaField_Plain fields key val :
  API.validateSchemaField (Plain fields) key val =
    API.validateSchema (Some fields) val key.
Proof. reflexivity. Qed.

(** ** The combinators *)

(** C4: [or(A, B)] returns what [A] returns when [A] accepts the value;
    when [A] throws it returns what [B] returns; it throws exactly when
    both throw, and then with the error of [B].  A number is accepted by
    [or(string(), number())] through the second alternative: [string()]
    throws for it, [number()] returns it, and so does the union. *)
Theorem C4_or_first_then_second (A B : SchemaField) (key : string) (v : value) :
  (forall r, API.validateSchemaField A key v = Return r ->
             API.validateSchemaField (Or A B) key v = Return r)
  /\ (forall e r, API.validateSchemaField A key v = Throw e ->
                  API.validateSchemaField B key v = Return r ->
                  API.validateSchemaField (Or A B) key v = Return r)
  /\ (forall e, API.validateSchemaField (Or A B) key v = Throw e <->
                (exists e1, API.validateSchemaField A key v = Throw e1) /\
                API.validateSchemaField B key v = Throw e)
  /\ (forall opts n,
        API.validateSchemaField (Schemas.string opts) key (VNum n)
        = Throw (Error ("Field " ++ key ++ " must be a string"))
        /\ API.validateSchemaField Schemas.number key (VNum n) = Return (VNum n)
        /\ API.validateSchemaField (Or (Schemas.string opts) Schemas.number) key (VNum n)
           = Return (VNum n)).
Proof.
  change (API.validateSchemaField (Or A B) key v)
    with (try_catch (API.validateSchemaField A key v) (API.validateSchemaField B key v)).
  split; [|split; [|split]].
  - intros r ->. reflexivity.
  - intros e r -> ->. reflexivity.
  - intros e. destruct (API.validateSchemaField A key v) as [r|e1]; simpl; split.
    + discriminate.
    + intros [[e1 He1] _]. discriminate.
    + intros H. split; [exists e1; reflexivity|exact H].
    + intros [_ H]. exact H.
  - intros opts n. split; [reflexivity|split; reflexivity].
Qed.

Lemma C4_or_witness :
  API.validateSchemaField
    (Or (Schemas.string {| Schemas.nonEmpty := None |}) Schemas.number) "n" (VNum 7)
  = Return (VNum 7).
Proof.
  exact (proj1 (proj2 (C4_or_first_then_second
                         (Schemas.string {| Schemas.nonEmpty := None |})
                         Schemas.number "n" (VNum 7)))
           (Error "Field n must be a string") (VNum 7) eq_refl eq_refl).
Defined.

(** C6: [optional(T)] returns [undefined] for an absent value whatever
    child validator it is handed, so [T] is not run; for every other value,
    [null] included, it calls the child validator on [T] and so returns or
    throws what [T] does.
    [optional(number())] rejects [null] and accepts absence. *)
Theorem C6_optional_absent_or_delegate (T : SchemaField) (key : string) (v : value) :
  (forall validator, Schemas.optional T key VUndefined validator = Return VUndefined)
  /\ API.validateSchemaField (Optional T) key VUndefined = Return VUndefined
  /\ (v <> VUndefined ->
      (forall validator, Schemas.optional T key v validator = validator T key v)
      /\ API.validateSchemaField (Optional T) key v = API.validateSchemaField T key v)
  /\ API.validateSchemaField (Optional Schemas.number) key VNull
     = Throw (Error ("Field " ++ key ++ " must be a number"))
  /\ API.validateSchemaField (Optional Schemas.number) key VUndefined
     = Return VUndefined.
Proof.
  split; [reflexivity|]. split; [reflexivity|]. split; [|split; reflexivity].
  intros Hv. destruct v; try (split; reflexivity). contradiction Hv. reflexivity.
Qed.

Lemma C6_optional_witness :
  API.validateSchemaField (Optional Schemas.number) "age" VNull
  = API.validateSchemaField Schemas.number "age" VNull.
Proof.
  refine (proj2 (proj1 (proj2 (proj2 (C6_optional_absent_or_delegate
                                        Schemas.number "age" VNull))) _)).
  discriminate.
Defined.

(** The two array combinators have the same body. *)
Lemma baseArray_array (T : SchemaField) key v :
  API.validateSchemaField (BaseArray T) key v = API.validateSchemaField (Array T) key v.
Proof. reflexivity. Qed.

Lemma array_of_list (T : SchemaField) key l :
  API.validateSchemaField (Array T) key (VArr l) =
    (r <- Lodash.map l (API.validateSchemaField T key) ;; Return (VArr r)).
Proof. reflexivity. Qed.

Lemma array_not_array (T : SchemaField) key v :
  Lodash.isArray v = false ->
  API.validateSchemaField (Array T) key v
  = Throw (Error ("Field " ++ key ++ " must be an array")).
Proof.
  intros H. change (API.validateSchemaField (Array T) key v)
    with (Schemas.array T key v API.validateSchemaField).
  unfold Schemas.array. rewrite H. reflexivity.
Qed.

Lemma array_all_valid (T : SchemaField) key l rs :
  Forall2 (fun x r => API.validateSchemaField T key x = Return r) l rs ->
  API.validateSchemaField (Array T) key (VArr l) = Return (VArr rs).
Proof.
  intros H. rewrite array_of_list, (map_Return _ _ _ H). reflexivity.
Qed.

Lemma array_first_invalid (T : SchemaField) key pre rs x e post :
  Forall2 (fun y r => API.validateSchemaField T key y = Return r) pre rs ->
  API.validateSchemaField T key x = Throw e ->
  API.validateSchemaField (Array T) key (VArr (pre ++ x :: post)%list) = Throw e.
Proof.
  intros Hpre Hx. rewrite array_of_list.
  rewrite (@map_Throw (API.validateSchemaField T key) pre rs x e post Hpre Hx).
  reflexivity.
Qed.

(** C7: [array(T)] and [baseArray(T)] throw "must be an array" at the field
    path for a value that is not an array; for an array they return the
    validated elements in input order, and throw what [T] throws for the
    first element it rejects, whatever follows it. *)
Theorem C7_array_validates_in_order (T : SchemaField) (key : string) :
  (forall v, Lodash.isArray v = false ->
     API.validateSchemaField (Array T) key v
       = Throw (Error ("Field " ++ key ++ " must be an array"))
     /\ API.validateSchemaField (BaseArray T) key v
       = Throw (Error ("Field " ++ key ++ " must be an array")))
  /\ (forall l rs,
        Forall2 (fun x r => API.validateSchemaField T key x = Return r) l rs ->
        API.validateSchemaField (Array T) key (VArr l) = Return (VArr rs)
        /\ API.validateSchemaField (BaseArray T) key (VArr l) = Return (VArr rs))
  /\ (forall pre rs x e post,
        Forall2 (fun y r => API.validateSchemaField T key y = Return r) pre rs ->
        API.validateSchemaField T key x = Throw e ->
        API.validateSchemaField (Array T) key (VArr (pre ++ x :: post)%list) = Throw e
        /\ API.validateSchemaField (BaseArray T) key (VArr (pre ++ x :: post)%list) = Throw e).
Proof.
  repeat split; intros; rewrite ?baseArray_array;
    eauto using array_not_array, array_all_valid, array_first_invalid.
Qed.

Lemma C7_array_witness :
  API.validateSchemaField (Array Schemas.number) "xs" (VArr [VNum 1; VNum 2; VNum 3])
    = Return (VArr [VNum 1; VNum 2; VNum 3])
  /\ API.validateSchemaField (Array Schemas.number) "xs" (VArr [VNum 1; VStr "b"; VNull])
    = Throw (Error "Field xs must be a number")
  /\ API.validateSchemaField (BaseArray Schemas.number) "xs" (VStr "abc")
    = Throw (Error "Field xs must be an array").
Proof.
  pose proof (C7_array_validates_in_order Schemas.number "xs") as (Hno & Hall & Hfirst).
  split; [|split].
  - apply (Hall [VNum 1; VNum 2; VNum 3] [VNum 1; VNum 2; VNum 3]).
    repeat constructor.
  - apply (Hfirst [VNum 1] [VNum 1] (VStr "b") (Error "Field xs must be a number") [VNull]).
    + repeat constructor.
    + reflexivity.
  - apply (Hno (VStr "abc")). reflexivity.
Defined.



(** ** The engine *)

(** C8: with a [null] schema, [validateSchema] returns [null] when the
    value is [null] or [undefined], and for every other value throws
    "must be null" at the current path. *)
Theorem C8_null_schema (obj : value) (key : string) :
  (obj = VNull \/ obj = VUndefined -> API.validateSchema None obj key = Return VNull)
  /\ (obj <> VNull -> obj <> VUndefined ->
      API.validateSchema None obj key
      = Throw (Error ("Object " ++ key ++ " must be null")))
  /\ ((exists r, API.validateSchema None obj key = Return r)
      <-> obj = VNull \/ obj = VUndefined).
Proof.
  repeat split.
  - intros [-> | ->]; reflexivity.
  - intros Hn Hu. destruct obj; try reflexivity; congruence.
  - intros [r H]. destruct obj; try discriminate; auto.
  - intros [-> | ->]; eexists; reflexivity.
Qed.

Lemma C8_null_schema_witness :
  API.validateSchema None (VObj []) "body" = Throw (Error "Object body must be null")
  /\ API.validateSchema None VUndefined "body" = Return VNull.
Proof.
  split.
  - apply (proj1 (proj2 (C8_null_schema (VObj []) "body"))); discriminate.
  - apply (proj1 (C8_null_schema VUndefined "body")). right. reflexivity.
Defined.

(** Case analysis on the first step of a sequence that returned. *)
Ltac bind_returned H x Hx :=
  match type of H with
  | bind ?a _ = Return _ =>
      destruct a as [x|] eqn:Hx; cbn [bind] in H; [|discriminate H]
  end.

(** [validateSchema] with an object schema, taken apart. *)
Lemma validateSchema_Some fields obj key :
  API.validateSchema (Some fields) obj key =
    if negb (Lodash.isPlainObject obj) then
      Throw (Error ("Object " ++ key ++ " must be an object"))
    else
      _ <- Lodash.forOwn (Lodash.entries obj)
             (fun _v f =>
                if negb (JS.has f fields) then
                  Throw (Error ("Extraneous field " ++ f))
                else Return tt) ;;
      r <- Lodash.mapValues fields
             (fun s f => API.validateSchemaField s (keyConcat key f) (JS.get obj f)) ;;
      Return (VObj r).
Proof. reflexivity. Qed.

Lemma validateSchema_Return_inv fields obj key r :
  API.validateSchema (Some fields) obj key = Return r ->
  Lodash.isPlainObject obj = true
  /\ (forall k x, In (k, x) (Lodash.entries obj) -> JS.has k fields = true)
  /\ exists out,
       Lodash.mapValues fields
         (fun s f => API.validateSchemaField s (keyConcat key f) (JS.get obj f))
       = Return out
       /\ r = VObj out.
Proof.
  rewrite validateSchema_Some. intros H.
  destruct (Lodash.isPlainObject obj); simpl in H; [|discriminate].
  split; [reflexivity|].
  bind_returned H u Hown.
  split.
  - intros k x Hin.
    destruct (forOwn_Return_inv _ _ _ _ k x Hown Hin) as [u' Hk].
    destruct (JS.has k fields); [reflexivity|discriminate].
  - bind_returned H out Hmap.
    exists out. split; [reflexivity|]. inversion H. reflexivity.
Qed.

Lemma validateSchema_Return fields props key out :
  (forall k x, In (k, x) props -> JS.has k fields = true) ->
  Lodash.mapValues fields
    (fun s f => API.validateSchemaField s (keyConcat key f) (JS.get (VObj props) f))
  = Return out ->
  API.validateSchema (Some fields) (VObj props) key = Return (VObj out).
Proof.
  intros Hkeys Hmap. rewrite validateSchema_Some.
  cbn [Lodash.isPlainObject Lodash.entries negb].
  rewrite forOwn_Return.
  - cbn [bind]. rewrite Hmap. reflexivity.
  - intros k x Hin. rewrite (Hkeys k x Hin). reflexivity.
Qed.

Lemma has_false (A : Type) (k : string) (fields : list (string * A)) :
  JS.has k fields = false <-> JS.own k fields = None /\ JS.inherited k = false.
Proof.
  unfold JS.has. destruct (JS.own k fields); split.
  - discriminate.
  - intros [H _]. discriminate.
  - auto.
  - intros [_ H]. exact H.
Qed.

Lemma get_absent props f :
  JS.own f props = None -> JS.inherited f = false ->
  JS.get (VObj props) f = VUndefined.
Proof.
  unfold JS.get, JS.inherited. intros -> H.
  apply orb_false_elim in H. destruct H as [-> ->]. reflexivity.
Qed.

Lemma get_own props f v :
  JS.own f props = Some v -> JS.get (VObj props) f = v.
Proof. unfold JS.get. intros ->. reflexivity. Qed.

(** Where the code does not keep C1: the object returned for
    [{"name": "Ann"}] has the key [age], bound to [undefined]. *)
Lemma C1_counterexample_age_key_kept :
  exists out,
    API.validateSchema (Some Examples.person) Examples.ann "" = Return (VObj out)
    /\ JS.own "age" out = Some VUndefined
    /\ JS.has "age" out = true
    /\ VObj out <> VObj [("name", VStr "Ann")].
Proof.
  exists [("name", VStr "Ann"); ("age", VUndefined)].
  repeat split. discriminate.
Qed.

(** C1, amended: validating [{"name": "Ann"}] against
    [{ name: string({nonEmpty: true}), age: optional(number()) }] returns
    [{ name: "Ann", age: undefined }].  Whenever [validateSchema] returns,
    the keys of the result are exactly the declared fields, and an
    [optional] field whose key the input lacks is bound to [undefined]. *)
Theorem C1_absent_optional_bound_to_undefined :
  API.validateSchema (Some Examples.person) Examples.ann ""
    = Return (VObj [("name", VStr "Ann"); ("age", VUndefined)])
  /\ forall fields props key r,
       API.validateSchema (Some fields) (VObj props) key = Return r ->
       exists out,
         r = VObj out
         /\ (forall f, In f (List.map fst out) <-> In f (List.map fst fields))
         /\ List.length out = List.length fields
         /\ forall f T,
              In (f, Optional T) fields ->
              JS.own f props = None -> JS.inherited f = false ->
              In (f, VUndefined) out.
Proof.
  split; [reflexivity|].
  intros fields props key r H.
  destruct (validateSchema_Return_inv _ _ _ _ H) as (_ & _ & out & Hmap & ->).
  pose proof (mapValues_keys _ _ _ _ Hmap) as Hkeys.
  exists out. split; [reflexivity|]. split; [|split].
  - intros f. rewrite Hkeys. reflexivity.
  - rewrite <- (length_map fst out), Hkeys, length_map. reflexivity.
  - intros f T Hin Hown Hinh.
    destruct (mapValues_In _ _ _ _ f (Optional T) Hmap Hin) as (r & Hr & Hout).
    rewrite (@get_absent props f Hown Hinh) in Hr.
    inversion Hr; subst r. exact Hout.
Qed.

Lemma C1_absent_optional_witness :
  exists out,
    VObj [("name", VStr "Ann"); ("age", VUndefined)] = VObj out
    /\ (forall f, In f (List.map fst out) <-> In f ["name"; "age"])
    /\ In ("age", VUndefined) out.
Proof.
  destruct (proj2 C1_absent_optional_bound_to_undefined
              Examples.person [("name", VStr "Ann")] ""
              (VObj [("name", VStr "Ann"); ("age", VUndefined)]) eq_refl)
    as (out & Hr & Hkeys & _ & Hopt).
  exists out. split; [exact Hr|]. split; [exact Hkeys|].
  apply (Hopt "age" Schemas.number).
  - right. left. reflexivity.
  - reflexivity.
  - reflexivity.
Defined.

(** C2, at the input [{"a": {"b": 1, "c": 2}}] of the schema
    [{ a: { b: number() } }]: the extraneous key, whose path is [a.c], is
    reported by its bare name [c]; a type error under the same object is
    reported with the path [a.b]. *)
Theorem C2_extraneous_field_bare_name :
  API.validateSchema (Some Examples.nested)
    (VObj [("a", VObj [("b", VNum 1); ("c", VNum 2)])]) ""
    = Throw (Error "Extraneous field c")
  /\ API.validateSchema (Some Examples.nested)
       (VObj [("a", VObj [("b", VStr "x")])]) ""
     = Throw (Error "Field a.b must be a number").
Proof. split; reflexivity. Qed.

(** C3, at the input [{"toString": 1}] of the empty object schema: the key
    is not declared, [validateSchema] returns all the same, because
    ["toString" in schema] holds of every object. *)
Theorem C3_inherited_name_not_rejected :
  JS.own "toString" (@nil (string * SchemaField)) = None
  /\ API.validateSchema (Some []) (VObj [("toString", VNum 1)]) "" = Return (VObj []).
Proof. split; reflexivity. Qed.

(** The walk over the input's keys throws for the first key that is neither
    declared nor inherited: every key before it passes the check. *)
Lemma forOwn_extraneous (fields : SchemaType) (props : list (string * value)) :
  (exists k, In k (List.map fst props) /\ JS.has k fields = false) ->
  exists pre k x post,
    props = (pre ++ (k, x) :: post)%list
    /\ (forall k' x', In (k', x') pre -> JS.has k' fields = true)
    /\ JS.has k fields = false
    /\ Lodash.forOwn props
         (fun _v f =>
            if negb (JS.has f fields) then
              Throw (Error ("Extraneous field " ++ f))
            else Return tt)
       = Throw (Error ("Extraneous field " ++ k)).
Proof.
  induction props as [|[k x] props IH]; intros Hex.
  - destruct Hex as (k & [] & _).
  - rewrite forOwn_cons. destruct (JS.has k fields) eqn:Hk; cbn [negb bind].
    + destruct IH as (pre & k' & x' & post & Hprops & Hpre & Hk' & Hthrow).
      * destruct Hex as (k' & [Heq|Hin] & Hk').
        -- simpl in Heq. subst k'. congruence.
        -- exists k'. auto.
      * exists ((k, x) :: pre), k', x', post.
        split; [rewrite Hprops; reflexivity|].
        split; [|split; [exact Hk'|exact Hthrow]].
        intros k0 x0 [Heq|Hin].
        -- inversion Heq; subst. exact Hk.
        -- exact (Hpre _ _ Hin).
    + exists [], k, x, props.
      split; [reflexivity|]. split; [|split; [exact Hk|reflexivity]].
      intros k0 x0 [].
Qed.

(** The extraneous-field check comes first: an input with a key that is
    neither declared nor inherited from [Object.prototype] makes
    [validateSchema] throw "Extraneous field" for the first such key in the
    order the input's own keys are enumerated, whatever the declared fields
    would do.  The input splits at that key: every key before it is declared
    or inherited, the key itself is neither. *)
Theorem extraneous_field_rejected_first fields props key :
  (exists k, In k (List.map fst props) /\ JS.has k fields = false) ->
  exists pre k x post,
    props = (pre ++ (k, x) :: post)%list
    /\ (forall k' x', In (k', x') pre -> JS.has k' fields = true)
    /\ JS.own k fields = None
    /\ JS.inherited k = false
    /\ API.validateSchema (Some fields) (VObj props) key
       = Throw (Error ("Extraneous field " ++ k)).
Proof.
  intros Hex.
  destruct (forOwn_extraneous fields props Hex)
    as (pre & k & x & post & Hprops & Hpre & Hk & Hthrow).
  apply has_false in Hk. destruct Hk as [Hown Hinh].
  exists pre, k, x, post.
  split; [exact Hprops|]. split; [exact Hpre|].
  split; [exact Hown|]. split; [exact Hinh|].
  rewrite validateSchema_Some.
  cbn [Lodash.isPlainObject Lodash.entries negb].
  rewrite Hthrow. reflexivity.
Qed.

(** Of two undeclared keys the earlier one is reported, after a declared
    key whose value is invalid and an inherited name. *)
Lemma extraneous_field_rejected_first_witness :
  exists pre k x post,
    [("name", VStr ""); ("toString", VNum 0); ("extra", VNum 1); ("more", VNum 2)]
    = (pre ++ (k, x) :: post)%list
    /\ (forall k' x', In (k', x') pre -> JS.has k' Examples.person = true)
    /\ JS.own k Examples.person = None
    /\ JS.inherited k = false
    /\ API.validateSchema (Some Examples.person)
         (VObj [("name", VStr ""); ("toString", VNum 0);
                ("extra", VNum 1); ("more", VNum 2)]) ""
       = Throw (Error ("Extraneous field " ++ k)).
Proof.
  apply (@extraneous_field_rejected_first Examples.person
           [("name", VStr ""); ("toString", VNum 0);
            ("extra", VNum 1); ("more", VNum 2)] "").
  exists "extra". split; [right; right; left; reflexivity|reflexivity].
Defined.

(** ** Reviving the empty text *)

Section ReviveEmpty.

Variable JSON_parse : string -> outcome value.
Variable JSON_stringify : value -> string.

(** All the code needs of the host: the text it makes of the
    empty-response value parses back to that value. *)
Hypothesis parse_stringify :
  JSON_parse (JSON_stringify EmptyResponseValue) = Return EmptyResponseValue.

Lemma reviveRequest_empty (a : API) :
  API.reviveRequest JSON_parse JSON_stringify a "" =
    match API.validateSchema (requestSchema a) EmptyResponseValue "" with
    | Return v => ([], Return v)
    | Throw e => (["Schema validation failed for request " ++ path a], Throw e)
    end.
Proof.
  unfold API.reviveRequest. cbn [String.eqb].
  rewrite parse_stringify. reflexivity.
Qed.

Lemma reviveResponse_empty (a : API) :
  API.reviveResponse JSON_parse JSON_stringify a "" =
    match API.validateSchema (responseSchema a) EmptyResponseValue "" with
    | Return v => ([], Return v)
    | Throw e => (["Schema validation failed for response " ++ path a], Throw e)
    end.
Proof.
  unfold API.reviveResponse. cbn [String.eqb].
  rewrite parse_stringify. reflexivity.
Qed.

Lemma validate_sentinel_undeclared (fields : SchemaType) :
  JS.own "isEmptyResponse" fields = None ->
  API.validateSchema (Some fields) EmptyResponseValue ""
  = Throw (Error "Extraneous field isEmptyResponse").
Proof.
  intros Hown. rewrite validateSchema_Some.
  cbn [Lodash.isPlainObject Lodash.entries negb EmptyResponseValue].
  rewrite forOwn_cons. unfold JS.has. rewrite Hown. reflexivity.
Qed.

End ReviveEmpty.

(** Where the code does not keep C5: the schema
    [{ isEmptyResponse: boolean() }] is not [emptySchema], and reviving the
    empty text against it returns the empty-response value on every host. *)
Lemma C5_counterexample_other_schema_accepts :
  requestSchema Examples.flag <> Some emptySchema
  /\ responseSchema Examples.flag <> Some emptySchema
  /\ forall JSON_parse JSON_stringify,
       JSON_parse (JSON_stringify EmptyResponseValue) = Return EmptyResponseValue ->
       API.reviveRequest JSON_parse JSON_stringify Examples.flag ""
         = ([], Return EmptyResponseValue)
       /\ API.reviveResponse JSON_parse JSON_stringify Examples.flag ""
         = ([], Return EmptyResponseValue).
Proof.
  assert (Hne : Some Examples.anyFlag <> Some emptySchema).
  { intros H. injection H as H.
    apply (f_equal (fun f => f "" (VBool false))) in H. discriminate H. }
  split; [exact Hne|]. split; [exact Hne|].
  intros parse stringify Hhost. split.
  - rewrite (@reviveRequest_empty _ _ Hhost _). reflexivity.
  - rewrite (@reviveResponse_empty _ _ Hhost _). reflexivity.
Qed.

(** C5, amended: on a host whose [JSON.parse] reads back what its
    [JSON.stringify] writes for the empty-response value,
    [API.reviveRequest] and [API.reviveResponse] treat the empty text as
    the JSON text of that value.  Against [emptySchema] they return the
    value; against a [null] schema they throw "must be null"; against an
    object schema that does not declare [isEmptyResponse] they throw
    "Extraneous field isEmptyResponse".  (A schema that declares the field
    may accept the value.) *)
Theorem C5_revive_empty_text
        (JSON_parse : string -> outcome value) (JSON_stringify : value -> string)
        (a : API) :
  JSON_parse (JSON_stringify EmptyResponseValue) = Return EmptyResponseValue ->
  (API.reviveRequest JSON_parse JSON_stringify a ""
     = API.reviveRequest JSON_parse JSON_stringify a (JSON_stringify EmptyResponseValue)
   /\ API.reviveResponse JSON_parse JSON_stringify a ""
     = API.reviveResponse JSON_parse JSON_stringify a (JSON_stringify EmptyResponseValue))
  /\ (requestSchema a = Some emptySchema ->
      API.reviveRequest JSON_parse JSON_stringify a "" = ([], Return EmptyResponseValue))
  /\ (responseSchema a = Some emptySchema ->
      API.reviveResponse JSON_parse JSON_stringify a "" = ([], Return EmptyResponseValue))
  /\ (requestSchema a = None ->
      API.reviveRequest JSON_parse JSON_stringify a ""
      = (["Schema validation failed for request " ++ path a],
         Throw (Error "Object  must be null")))
  /\ (responseSchema a = None ->
      API.reviveResponse JSON_parse JSON_stringify a ""
      = (["Schema validation failed for response " ++ path a],
         Throw (Error "Object  must be null")))
  /\ (forall fields,
        requestSchema a = Some fields -> JS.own "isEmptyResponse" fields = None ->
        API.reviveRequest JSON_parse JSON_stringify a ""
        = (["Schema validation failed for request " ++ path a],
           Throw (Error "Extraneous field isEmptyResponse")))
  /\ (forall fields,
        responseSchema a = Some fields -> JS.own "isEmptyResponse" fields = None ->
        API.reviveResponse JSON_parse JSON_stringify a ""
        = (["Schema validation failed for response " ++ path a],
           Throw (Error "Extraneous field isEmptyResponse"))).
Proof.
  intros Hhost.
  split; [|split; [|split; [|split; [|split; [|split]]]]].
  - unfold API.reviveRequest, API.reviveResponse. cbn [String.eqb].
    destruct (JSON_stringify EmptyResponseValue =? ""); split; reflexivity.
  - intros Hs. rewrite (@reviveRequest_empty _ _ Hhost _), Hs. reflexivity.
  - intros Hs. rewrite (@reviveResponse_empty _ _ Hhost _), Hs. reflexivity.
  - intros Hs. rewrite (@reviveRequest_empty _ _ Hhost _), Hs. reflexivity.
  - intros Hs. rewrite (@reviveResponse_empty _ _ Hhost _), Hs. reflexivity.
  - intros fields Hs Hown.
    rewrite (@reviveRequest_empty _ _ Hhost _), Hs, (@validate_sentinel_undeclared _ Hown).
    reflexivity.
  - intros fields Hs Hown.
    rewrite (@reviveResponse_empty _ _ Hhost _), Hs, (@validate_sentinel_undeclared _ Hown).
    reflexivity.
Qed.

Lemma C5_revive_empty_text_witness :
  Examples.parseSentinel (Examples.stringifySentinel EmptyResponseValue)
    = Return EmptyResponseValue
  /\ API.reviveRequest Examples.parseSentinel Examples.stringifySentinel Examples.ping ""
    = ([], Return EmptyResponseValue)
  /\ API.reviveResponse Examples.parseSentinel Examples.stringifySentinel Examples.ping ""
    = ([], Return EmptyResponseValue).
Proof.
  pose proof (@C5_revive_empty_text Examples.parseSentinel Examples.stringifySentinel
                Examples.ping eq_refl) as (_ & Hreq & Hres & _).
  split; [reflexivity|]. split.
  - apply Hreq. reflexivity.
  - apply Hres. reflexivity.
Defined.

(** ** Conforming values *)

Lemma optional_present (T : SchemaField) key v :
  v <> VUndefined ->
  API.validateSchemaField (Optional T) key v = API.validateSchemaField T key v.
Proof.
  intros Hv. destruct v; try reflexivity. contradiction Hv. reflexivity.
Qed.

Lemma map_total (f : value -> outcome value) l :
  (forall x, In x l -> exists r, f x = Return r) ->
  exists rs, Lodash.map l f = Return rs.
Proof.
  induction l as [|x l IH]; intros H.
  - exists []. reflexivity.
  - destruct (H x (or_introl eq_refl)) as [r Hr].
    destruct IH as [rs Hrs]. { intros; apply H; right; assumption. }
    exists (r :: rs). rewrite map_cons, Hr, Hrs. reflexivity.
Qed.

Lemma ordinary_names_In fields f s :
  ordinary_names (Plain fields) = true -> In (f, s) fields ->
  JS.inherited f = false /\ ordinary_names s = true.
Proof.
  induction fields as [|[f' s'] fields IH]; intros H Hin.
  - destruct Hin.
  - cbn in H. apply andb_true_iff in H. destruct H as [H Hrest].
    apply andb_true_iff in H. destruct H as [Hf Hs].
    destruct Hin as [Heq|Hin].
    + inversion Heq; subst. split; [|exact Hs].
      apply negb_true_iff. exact Hf.
    + apply IH; assumption.
Qed.

Lemma JSON_value_prop props k x :
  JSON_value (VObj props) = true -> In (k, x) props -> JSON_value x = true.
Proof.
  induction props as [|[k' x'] props IH]; intros H Hin.
  - destruct Hin.
  - cbn in H. apply andb_true_iff in H. destruct H as [Hx Hrest].
    destruct Hin as [Heq|Hin].
    + inversion Heq; subst. exact Hx.
    + apply IH; assumption.
Qed.

Lemma JSON_value_elem elems x :
  JSON_value (VArr elems) = true -> In x elems -> JSON_value x = true.
Proof.
  induction elems as [|x' elems IH]; intros H Hin.
  - destruct Hin.
  - cbn in H. apply andb_true_iff in H. destruct H as [Hx Hrest].
    destruct Hin as [Heq|Hin].
    + subst. exact Hx.
    + apply IH; assumption.
Qed.

Lemma ordinary_keys_prop props k x :
  ordinary_keys (VObj props) = true -> In (k, x) props ->
  JS.inherited k = false /\ ordinary_keys x = true.
Proof.
  induction props as [|[k' x'] props IH]; intros H Hin.
  - destruct Hin.
  - cbn in H. apply andb_true_iff in H. destruct H as [H Hrest].
    apply andb_true_iff in H. destruct H as [Hk Hx].
    destruct Hin as [Heq|Hin].
    + inversion Heq; subst. split; [|exact Hx].
      apply negb_true_iff. exact Hk.
    + apply IH; assumption.
Qed.

Lemma ordinary_keys_elem elems x :
  ordinary_keys (VArr elems) = true -> In x elems -> ordinary_keys x = true.
Proof.
  induction elems as [|x' elems IH]; intros H Hin.
  - destruct Hin.
  - cbn in H. apply andb_true_iff in H. destruct H as [Hx Hrest].
    destruct Hin as [Heq|Hin].
    + subst. exact Hx.
    + apply IH; assumption.
Qed.

(** With a name that is not inherited, [obj[f]] is the field or absent. *)
Lemma get_field props f :
  JS.inherited f = false -> JS.get (VObj props) f = field f props.
Proof.
  intros Hinh. unfold field. destruct (JS.own f props) as [x|] eqn:Hown.
  - apply get_own. exact Hown.
  - apply get_absent; assumption.
Qed.

(** A conforming value is accepted. *)
Lemma conforms_accepted S v :
  conforms S v -> ordinary_names S = true ->
  forall key, exists r, API.validateSchemaField S key v = Return r.
Proof.
  induction 1 as
    [ n | opts s Hs | l | | opts b Hb | T | T v Hv _ IH
    | T props _ IH | A B v _ IH | A B v _ IH
    | T elems _ IH | T elems _ IH | fields props Hkeys _ IH ];
    intros Hord key.
  - eexists. reflexivity.
  - destruct opts as [[[|]|]]; try (eexists; reflexivity).
    destruct s as [|c s]; [contradiction (Hs eq_refl); reflexivity|].
    eexists. reflexivity.
  - eexists. cbn. rewrite String.eqb_refl. reflexivity.
  - eexists. reflexivity.
  - destruct opts as [[[want|]]|]; try (eexists; reflexivity).
    rewrite (Hb want eq_refl). eexists. cbn. rewrite Bool.eqb_reflx. reflexivity.
  - eexists. reflexivity.
  - rewrite (optional_present T key v Hv). apply IH. exact Hord.
  - destruct (@mapValues_total value
                (fun x k => API.validateSchemaField T (keyConcat key k) x) props)
      as [rs Hrs].
    { intros k x Hin. apply (IH k x Hin Hord). }
    exists (VObj rs).
    change (API.validateSchemaField (Values T) key (VObj props))
      with (r <- Lodash.mapValues props
                   (fun x k => API.validateSchemaField T (keyConcat key k) x) ;;
            Return (VObj r)).
    rewrite Hrs. reflexivity.
  - cbn in Hord. apply andb_true_iff in Hord. destruct Hord as [HA HB].
    destruct (IH HA key) as [r Hr]. exists r.
    change (API.validateSchemaField (Or A B) key v)
      with (try_catch (API.validateSchemaField A key v) (API.validateSchemaField B key v)).
    rewrite Hr. reflexivity.
  - cbn in Hord. apply andb_true_iff in Hord. destruct Hord as [HA HB].
    change (API.validateSchemaField (Or A B) key v)
      with (try_catch (API.validateSchemaField A key v) (API.validateSchemaField B key v)).
    destruct (API.validateSchemaField A key v) as [r|e].
    + exists r. reflexivity.
    + apply (IH HB key).
  - rewrite baseArray_array, array_of_list.
    destruct (@map_total (API.validateSchemaField T key) elems) as [rs Hrs].
    { intros x Hin. apply (IH x Hin Hord). }
    exists (VArr rs). rewrite Hrs. reflexivity.
  - rewrite array_of_list.
    destruct (@map_total (API.validateSchemaField T key) elems) as [rs Hrs].
    { intros x Hin. apply (IH x Hin Hord). }
    exists (VArr rs). rewrite Hrs. reflexivity.
  - destruct (@mapValues_total SchemaField
                (fun s f => API.validateSchemaField s (keyConcat key f)
                              (JS.get (VObj props) f)) fields)
      as [out Hout].
    { intros f s Hin.
      destruct (ordinary_names_In _ _ _ Hord Hin) as [Hf Hs].
      rewrite (@get_field props f Hf). apply (IH f s Hin Hs). }
    exists (VObj out). rewrite validateSchemaField_Plain.
    apply validateSchema_Return; [|exact Hout].
    intros k x Hin. unfold JS.has.
    destruct (JS.own k fields) eqn:Hown; [reflexivity|].
    contradiction (Hkeys k x Hin).
Qed.

Lemma map_Return_In (f : value -> outcome value) l rs x :
  Lodash.map l f = Return rs -> In x l -> exists r, f x = Return r.
Proof.
  intros H. apply map_Return_inv in H.
  induction H as [|y r l rs Hy _ IH]; intros Hin.
  - destruct Hin.
  - destruct Hin as [Heq|Hin].
    + subst. exists r. exact Hy.
    + apply IH. exact Hin.
Qed.

Lemma results_related (f : value -> outcome value) (R : value -> value -> Prop) l rs :
  Forall2 (fun x r => f x = Return r) l rs ->
  (forall x r, In x l -> f x = Return r -> R r x) ->
  Forall2 R rs l.
Proof.
  induction 1 as [|x r l rs Hx _ IH]; intros HR; constructor.
  - apply HR; [left; reflexivity|exact Hx].
  - apply IH. intros y ry Hin. apply HR. right. exact Hin.
Qed.

(** The leaves of [Schemas] other than [date] return the value they are
    given. *)
Lemma leaf_returns_input S key v r :
  S = Schemas.number \/ (exists opts, S = Schemas.string opts)
  \/ (exists l, S = Schemas.literal l) \/ S = Schemas.nulll
  \/ (exists opts, S = Schemas.boolean opts) ->
  API.validateSchemaField S key v = Return r -> r = v.
Proof.
  intros [-> | [[opts ->] | [[l ->] | [-> | [opts ->]]]]]; cbn; intros H.
  - destruct (JS.typeof v =? "number"); [|discriminate]. congruence.
  - destruct v; try discriminate.
    destruct (Schemas.nonEmpty opts) as [[|]|]; try congruence.
    destruct (Nat.eqb (String.length s) 0); [discriminate|congruence].
  - destruct v; try discriminate.
    destruct (s =? l) eqn:Hs; [|discriminate].
    apply String.eqb_eq in Hs. congruence.
  - destruct v; try discriminate. congruence.
  - destruct v; try discriminate.
    destruct opts as [[[want|]]|]; try congruence.
    destruct (Bool.eqb b want); [congruence|discriminate].
Qed.

(** What a combinator schema returns reads like what it was given. *)
Lemma accepted_same_reads S :
  combinator_schema S -> ordinary_names S = true ->
  forall key v r,
    v = VUndefined \/ JSON_value v = true -> ordinary_keys v = true ->
    API.validateSchemaField S key v = Return r -> same_reads r v.
Proof.
  induction 1 as
    [ | opts | l | | opts | T _ IH | T _ IH | A B _ IHA _ IHB
    | T _ IH | T _ IH | fields _ IH ];
    intros Hord key v r Hjson Hkeys Hret.
  - rewrite (@leaf_returns_input Schemas.number key v r); auto using same_value.
  - rewrite (@leaf_returns_input (Schemas.string opts) key v r);
      eauto 6 using same_value.
  - rewrite (@leaf_returns_input (Schemas.literal l) key v r);
      eauto 6 using same_value.
  - rewrite (@leaf_returns_input Schemas.nulll key v r); auto 6 using same_value.
  - rewrite (@leaf_returns_input (Schemas.boolean opts) key v r);
      eauto 8 using same_value.
  - destruct v; try (rewrite optional_present in Hret by discriminate;
                     apply (IH Hord _ _ _ Hjson Hkeys Hret)).
    cbn in Hret. inversion Hret. apply same_value.
  - change (API.validateSchemaField (Values T) key v)
      with (Schemas.values T key v API.validateSchemaField) in Hret.
    unfold Schemas.values in Hret.
    destruct v; try discriminate Hret.
    + cbn [Lodash.isPlainObject negb Lodash.entries] in Hret.
      bind_returned Hret rs Hmap.
      inversion Hret; subst r. apply same_object. intros k.
      pose proof (mapValues_own _ _ _ _ k Hmap) as Hk.
      destruct (JS.own k props) as [x|] eqn:Hown.
      * destruct Hk as (rk & Hrk & Hown').
        rewrite (get_own _ _ _ Hown'), (get_own _ _ _ Hown).
        destruct Hjson as [Hu|Hjson]; [discriminate|].
        apply own_In in Hown.
        apply (IH Hord _ _ _ (or_intror (JSON_value_prop _ _ _ Hjson Hown))
                 (proj2 (ordinary_keys_prop _ _ _ Hkeys Hown)) Hrk).
      * unfold JS.get. rewrite Hk, Hown. apply same_value.
    + destruct Hjson as [Hu|Hjson]; discriminate.
  - cbn in Hord. apply andb_true_iff in Hord. destruct Hord as [HA HB].
    change (API.validateSchemaField (Or A B) key v)
      with (try_catch (API.validateSchemaField A key v) (API.validateSchemaField B key v))
      in Hret.
    destruct (API.validateSchemaField A key v) as [rA|e] eqn:HrA; cbn in Hret.
    + inversion Hret; subst rA. apply (IHA HA _ _ _ Hjson Hkeys HrA).
    + apply (IHB HB _ _ _ Hjson Hkeys Hret).
  - rewrite baseArray_array in Hret.
    destruct v; try (rewrite array_not_array in Hret by reflexivity; discriminate).
    rewrite array_of_list in Hret.
    destruct (Lodash.map elems (API.validateSchemaField T key)) as [rs|e] eqn:Hmap;
      cbn in Hret; [|discriminate].
    inversion Hret; subst r. apply same_array.
    destruct Hjson as [Hu|Hjson]; [discriminate|].
    apply map_Return_inv in Hmap.
    apply (results_related _ _ _ _ Hmap). intros x rx Hin Hx.
    apply (IH Hord key x rx); [right| |exact Hx].
    + apply (JSON_value_elem _ _ Hjson Hin).
    + apply (ordinary_keys_elem _ _ Hkeys Hin).
  - destruct v; try (rewrite array_not_array in Hret by reflexivity; discriminate).
    rewrite array_of_list in Hret.
    destruct (Lodash.map elems (API.validateSchemaField T key)) as [rs|e] eqn:Hmap;
      cbn in Hret; [|discriminate].
    inversion Hret; subst r. apply same_array.
    destruct Hjson as [Hu|Hjson]; [discriminate|].
    apply map_Return_inv in Hmap.
    apply (results_related _ _ _ _ Hmap). intros x rx Hin Hx.
    apply (IH Hord key x rx); [right| |exact Hx].
    + apply (JSON_value_elem _ _ Hjson Hin).
    + apply (ordinary_keys_elem _ _ Hkeys Hin).
  - rewrite validateSchemaField_Plain in Hret.
    destruct (validateSchema_Return_inv _ _ _ _ Hret) as (Hplain & Hdecl & out & Hmap & ->).
    destruct v; try discriminate Hplain;
      [|destruct Hjson as [Hu|Hjson]; discriminate].
    destruct Hjson as [Hu|Hjson]; [discriminate|].
    cbn [Lodash.entries] in Hdecl.
    apply same_object. intros k.
    pose proof (mapValues_own _ _ _ _ k Hmap) as Hk.
    destruct (JS.own k fields) as [s|] eqn:Hown.
    + destruct Hk as (rk & Hrk & Hown').
      rewrite (get_own _ _ _ Hown').
      apply own_In in Hown.
      destruct (ordinary_names_In _ _ _ Hord Hown) as [Hinh Hs].
      apply (IH k s Hown Hs _ _ _) in Hrk; [exact Hrk| |].
      * rewrite (@get_field props k Hinh). unfold field.
        destruct (JS.own k props) as [x|] eqn:Hx; [right|left; reflexivity].
        apply (JSON_value_prop _ _ _ Hjson (own_In _ _ _ _ Hx)).
      * rewrite (@get_field props k Hinh). unfold field.
        destruct (JS.own k props) as [x|] eqn:Hx; [|reflexivity].
        apply (ordinary_keys_prop _ _ _ Hkeys (own_In _ _ _ _ Hx)).
    + assert (Hnone : JS.own k props = None).
      { destruct (JS.own k props) as [x|] eqn:Hx; [|reflexivity].
        apply own_In in Hx.
        pose proof (Hdecl k x Hx) as Hhas. unfold JS.has in Hhas.
        rewrite Hown in Hhas.
        destruct (ordinary_keys_prop _ _ _ Hkeys Hx) as [Hinh _].
        congruence. }
      unfold JS.get. rewrite Hk, Hnone. apply same_value.
Qed.

Lemma person_combinator_schema : combinator_schema (Plain Examples.person).
Proof.
  apply cs_plain. intros f s [Heq|[Heq|[]]]; inversion Heq; subst.
  - apply cs_string.
  - apply cs_optional, cs_number.
Qed.

Lemma ann_conforms : conforms (Plain Examples.person) Examples.ann.
Proof.
  apply conforms_plain.
  - intros k x [Heq|[]]. inversion Heq; subst. discriminate.
  - intros f s [Heq|[Heq|[]]]; inversion Heq; subst; cbn.
    + apply conforms_string. discriminate.
    + apply conforms_absent.
Qed.

(** [same_reads] tells apart objects that differ in a defined property. *)
Lemma same_reads_discriminates :
  same_reads (VObj [("name", VStr "Ann"); ("age", VUndefined)]) Examples.ann
  /\ ~ same_reads (VObj [("name", VStr "Bob")]) Examples.ann
  /\ ~ same_reads (VObj []) Examples.ann
  /\ ~ same_reads (VArr [VNum 1]) (VArr [VNum 1; VNum 2]).
Proof.
  split; [|split; [|split]].
  - apply same_object. intros k. unfold JS.get. cbn [JS.own].
    destruct ("name" =? k) eqn:Hname; [apply same_value|].
    destruct ("age" =? k) eqn:Hage; [|apply same_value].
    apply String.eqb_eq in Hage. subst k. apply same_value.
  - intros H. inversion H as [v Hv|xs ys Hall|ps qs Hread]; subst.
    specialize (Hread "name"). cbn in Hread. inversion Hread.
  - intros H. inversion H as [v Hv|xs ys Hall|ps qs Hread]; subst.
    specialize (Hread "name"). cbn in Hread. inversion Hread.
  - intros H. inversion H as [v Hv|xs ys Hall|ps qs Hread]; subst.
    inversion Hall as [|x y xs' ys' Hxy Hrest]; subst. inversion Hrest.
Qed.

(** Where the code does not keep C9: [{"name": "Ann"}] conforms to
    [{ name: string({nonEmpty: true}), age: optional(number()) }], and what
    validation returns is not that value with fields left out: it has one
    key more, [age], which ["age" in ...] and the list of keys tell from the
    input. *)
Lemma C9_counterexample_key_added :
  combinator_schema (Plain Examples.person)
  /\ JSON_value Examples.ann = true
  /\ conforms (Plain Examples.person) Examples.ann
  /\ exists out,
       API.validateSchemaField (Plain Examples.person) "" Examples.ann
         = Return (VObj out)
       /\ VObj out <> Examples.ann
       /\ List.map fst out = ["name"; "age"]
       /\ List.map fst (Lodash.entries Examples.ann) = ["name"]
       /\ JS.has "age" out = true
       /\ JS.has "age" (Lodash.entries Examples.ann) = false.
Proof.
  split; [exact person_combinator_schema|]. split; [reflexivity|].
  split; [exact ann_conforms|].
  exists [("name", VStr "Ann"); ("age", VUndefined)].
  repeat split. discriminate.
Qed.

(** C9, amended: for a schema built from the combinators other than
    [date] and from plain objects, and a JSON value that conforms to it,
    where no declared field and no key of the value bears the name of a
    member of [Object.prototype], validation returns, and what it returns
    reads like the value: equal scalars, arrays equal element by element,
    objects equal property by property, a key bound to [undefined] standing
    for a missing one. *)
Theorem C9_conforming_value_validated (S : SchemaField) (v : value) (key : string) :
  combinator_schema S -> ordinary_names S = true ->
  JSON_value v = true -> ordinary_keys v = true ->
  conforms S v ->
  exists r,
    API.validateSchemaField S key v = Return r
    /\ same_reads r v
    /\ forall fields, S = Plain fields ->
         API.validateSchema (Some fields) v key = Return r.
Proof.
  intros Hcs Hord Hjson Hkeys Hconf.
  destruct (conforms_accepted S v Hconf Hord key) as [r Hr].
  exists r. split; [exact Hr|]. split.
  - exact (accepted_same_reads S Hcs Hord key v r (or_intror Hjson) Hkeys Hr).
  - intros fields ->. exact Hr.
Qed.

Lemma C9_conforming_value_witness :
  exists r,
    API.validateSchemaField (Plain Examples.person) "" Examples.ann = Return r
    /\ same_reads r Examples.ann
    /\ forall fields, Plain Examples.person = Plain fields ->
         API.validateSchema (Some fields) Examples.ann "" = Return r.
Proof.
  exact (C9_conforming_value_validated (Plain Examples.person) Examples.ann ""
           person_combinator_schema eq_refl eq_refl eq_refl ann_conforms).
Defined.

(** A declared field is read with [obj[f]], which finds the members of
    [Object.prototype]: the empty object conforms to
    [{ constructor: optional(string()) }] and is rejected, the inherited
    [constructor] being validated in place of the absent field. *)
Theorem inherited_member_read_as_field :
  conforms (Plain Examples.ctor) (VObj [])
  /\ JS.get (VObj []) "constructor" = VFunction "constructor"
  /\ API.validateSchema (Some Examples.ctor) (VObj []) ""
     = Throw (Error "Field constructor must be a string").
Proof.
  split; [|split; reflexivity].
  apply conforms_plain.
  - intros k x [].
  - intros f s [Heq|[]]. inversion Heq; subst. cbn. apply conforms_absent.
Qed.

(** What a combinator schema accepts conforms to it. *)
Lemma accepted_conforms S :
  combinator_schema S -> ordinary_names S = true ->
  forall key v r,
    v = VUndefined \/ JSON_value v = true -> ordinary_keys v = true ->
    API.validateSchemaField S key v = Return r -> conforms S v.
Proof.
  induction 1 as
    [ | opts | l | | opts | T _ IH | T _ IH | A B _ IHA _ IHB
    | T _ IH | T _ IH | fields _ IH ];
    intros Hord key v r Hjson Hkeys Hret.
  - destruct v; try discriminate Hret. apply conforms_number.
  - destruct v; try discriminate Hret. apply conforms_string.
    intros Hne ->. cbn in Hret. rewrite Hne in Hret. discriminate Hret.
  - destruct v; try discriminate Hret. cbn in Hret.
    destruct (s =? l) eqn:Hs; [|discriminate Hret].
    apply String.eqb_eq in Hs. subst s. apply conforms_literal.
  - destruct v; try discriminate Hret. apply conforms_nulll.
  - destruct v; try discriminate Hret. apply conforms_boolean.
    intros want ->. cbn in Hret.
    destruct (Bool.eqb b want) eqn:Hb; [|discriminate Hret].
    apply Bool.eqb_prop. exact Hb.
  - destruct v; try (apply conforms_present; [discriminate|];
                     rewrite optional_present in Hret by discriminate;
                     apply (IH Hord _ _ _ Hjson Hkeys Hret)).
    apply conforms_absent.
  - change (API.validateSchemaField (Values T) key v)
      with (Schemas.values T key v API.validateSchemaField) in Hret.
    unfold Schemas.values in Hret.
    destruct v; try discriminate Hret;
      [|destruct Hjson as [Hu|Hjson]; discriminate].
    destruct Hjson as [Hu|Hjson]; [discriminate|].
    cbn [Lodash.isPlainObject negb Lodash.entries] in Hret.
    bind_returned Hret rs Hmap.
    apply conforms_values. intros k x Hin.
    destruct (mapValues_In _ _ _ _ k x Hmap Hin) as (rx & Hrx & _).
    apply (IH Hord _ _ _ (or_intror (JSON_value_prop _ _ _ Hjson Hin))
             (proj2 (ordinary_keys_prop _ _ _ Hkeys Hin)) Hrx).
  - cbn in Hord. apply andb_true_iff in Hord. destruct Hord as [HA HB].
    change (API.validateSchemaField (Or A B) key v)
      with (try_catch (API.validateSchemaField A key v) (API.validateSchemaField B key v))
      in Hret.
    destruct (API.validateSchemaField A key v) as [rA|e] eqn:HrA; cbn in Hret.
    + apply conforms_or_first. apply (IHA HA _ _ _ Hjson Hkeys HrA).
    + apply conforms_or_second. apply (IHB HB _ _ _ Hjson Hkeys Hret).
  - rewrite baseArray_array in Hret.
    destruct v; try (rewrite array_not_array in Hret by reflexivity; discriminate).
    rewrite array_of_list in Hret.
    destruct (Lodash.map elems (API.validateSchemaField T key)) as [rs|e] eqn:Hmap;
      cbn in Hret; [|discriminate].
    destruct Hjson as [Hu|Hjson]; [discriminate|].
    apply conforms_baseArray. intros x Hin.
    destruct (map_Return_In _ _ _ x Hmap Hin) as [rx Hrx].
    apply (IH Hord key x rx); [right| |exact Hrx].
    + apply (JSON_value_elem _ _ Hjson Hin).
    + apply (ordinary_keys_elem _ _ Hkeys Hin).
  - destruct v; try (rewrite array_not_array in Hret by reflexivity; discriminate).
    rewrite array_of_list in Hret.
    destruct (Lodash.map elems (API.validateSchemaField T key)) as [rs|e] eqn:Hmap;
      cbn in Hret; [|discriminate].
    destruct Hjson as [Hu|Hjson]; [discriminate|].
    apply conforms_array. intros x Hin.
    destruct (map_Return_In _ _ _ x Hmap Hin) as [rx Hrx].
    apply (IH Hord key x rx); [right| |exact Hrx].
    + apply (JSON_value_elem _ _ Hjson Hin).
    + apply (ordinary_keys_elem _ _ Hkeys Hin).
  - rewrite validateSchemaField_Plain in Hret.
    destruct (validateSchema_Return_inv _ _ _ _ Hret) as (Hplain & Hdecl & out & Hmap & ->).
    destruct v; try discriminate Hplain;
      [|destruct Hjson as [Hu|Hjson]; discriminate].
    destruct Hjson as [Hu|Hjson]; [discriminate|].
    cbn [Lodash.entries] in Hdecl.
    apply conforms_plain.
    + intros k x Hin Hnone.
      pose proof (Hdecl k x Hin) as Hhas. unfold JS.has in Hhas.
      rewrite Hnone in Hhas.
      destruct (ordinary_keys_prop _ _ _ Hkeys Hin) as [Hinh _]. congruence.
    + intros f s Hin.
      destruct (ordinary_names_In _ _ _ Hord Hin) as [Hinh Hs].
      destruct (mapValues_In _ _ _ _ f s Hmap Hin) as (rf & Hrf & _).
      rewrite (get_field props f Hinh) in Hrf.
      apply (IH f s Hin Hs _ _ _) in Hrf; [exact Hrf| |]; unfold field.
      * destruct (JS.own f props) as [x|] eqn:Hx; [right|left; reflexivity].
        apply (JSON_value_prop _ _ _ Hjson (own_In _ _ _ _ Hx)).
      * destruct (JS.own f props) as [x|] eqn:Hx; [|reflexivity].
        apply (ordinary_keys_prop _ _ _ Hkeys (own_In _ _ _ _ Hx)).
Qed.

(** Conformance is acceptance: away from the names of [Object.prototype],
    a combinator schema accepts exactly the JSON values that conform to
    it. *)
Theorem conforms_iff_accepted (S : SchemaField) (v : value) (key : string) :
  combinator_schema S -> ordinary_names S = true ->
  JSON_value v = true -> ordinary_keys v = true ->
  (conforms S v <-> exists r, API.validateSchemaField S key v = Return r).
Proof.
  intros Hcs Hord Hjson Hkeys. split.
  - intros Hconf. apply (conforms_accepted S v Hconf Hord key).
  - intros [r Hr].
    apply (accepted_conforms S Hcs Hord key v r (or_intror Hjson) Hkeys Hr).
Qed.

Lemma conforms_iff_accepted_witness :
  conforms (Plain Examples.person) Examples.ann
  <-> exists r, API.validateSchemaField (Plain Examples.person) "" Examples.ann = Return r.
Proof.
  exact (conforms_iff_accepted (Plain Examples.person) Examples.ann ""
           person_combinator_schema eq_refl eq_refl eq_refl).
Defined.

(** * Further properties of [api.ts] *)

(** ** More on the lodash walks *)

Lemma mapValues_Throw (A : Type) (g : A -> string -> outcome value) pre k v post e :
  (forall k' v', In (k', v') pre -> exists r, g v' k' = Return r) ->
  g v k = Throw e ->
  Lodash.mapValues (pre ++ (k, v) :: post)%list g = Throw e.
Proof.
  intros Hpre Hk. induction pre as [|[k' v'] pre IH]; simpl app.
  - rewrite mapValues_cons, Hk. reflexivity.
  - rewrite mapValues_cons.
    destruct (Hpre k' v' (or_introl eq_refl)) as [r ->]. cbn [bind].
    rewrite IH; [reflexivity|]. intros; apply Hpre; right; assumption.
Qed.

Lemma mapValues_Throw_inv (A : Type) (g : A -> string -> outcome value) o e :
  Lodash.mapValues o g = Throw e -> exists k v, In (k, v) o /\ g v k = Throw e.
Proof.
  induction o as [|[k v] o IH]; intros H.
  - rewrite mapValues_nil in H. discriminate.
  - rewrite mapValues_cons in H. destruct (g v k) as [r|e'] eqn:Hg; cbn [bind] in H.
    + destruct (Lodash.mapValues o g) as [rs|e''] eqn:Ho; cbn [bind] in H;
        [discriminate|].
      inversion H; subst e''. destruct (IH eq_refl) as (k' & v' & Hin & Hk').
      exists k', v'. split; [right; exact Hin|exact Hk'].
    + inversion H; subst e'. exists k, v. split; [left; reflexivity|exact Hg].
Qed.

Lemma forOwn_Throw_inv (A : Type) (it : A -> string -> outcome unit) o e :
  Lodash.forOwn o it = Throw e -> exists k v, In (k, v) o /\ it v k = Throw e.
Proof.
  induction o as [|[k v] o IH]; intros H.
  - rewrite forOwn_nil in H. discriminate.
  - rewrite forOwn_cons in H. destruct (it v k) as [u|e'] eqn:Hit; cbn [bind] in H.
    + destruct (IH H) as (k' & v' & Hin & Hk').
      exists k', v'. split; [right; exact Hin|exact Hk'].
    + inversion H; subst e'. exists k, v. split; [left; reflexivity|exact Hit].
Qed.

(** What [_.mapValues] returns, property by property. *)
Lemma mapValues_Return_iff (A : Type) (g : A -> string -> outcome value) o rs :
  Lodash.mapValues o g = Return rs <->
  Forall2 (fun p q => fst q = fst p /\ g (snd p) (fst p) = Return (snd q)) o rs.
Proof.
  split.
  - revert rs. induction o as [|[k v] o IH]; intros rs H.
    + rewrite mapValues_nil in H. inversion H. constructor.
    + rewrite mapValues_cons in H.
      destruct (g v k) as [r|e] eqn:Hg; cbn [bind] in H; [|discriminate].
      destruct (Lodash.mapValues o g) as [rs'|e] eqn:Ho; cbn [bind] in H;
        [|discriminate].
      inversion H; subst rs. constructor; [split; [reflexivity|exact Hg]|].
      apply IH. reflexivity.
  - induction 1 as [|[k v] [k' r] o rs [Hk Hg] _ IH].
    + reflexivity.
    + cbn in Hk, Hg. subst k'. rewrite mapValues_cons, Hg, IH. reflexivity.
Qed.

Lemma values_of_object (T : SchemaField) key props :
  API.validateSchemaField (Values T) key (VObj props) =
    (r <- Lodash.mapValues props
            (fun x k => API.validateSchemaField T (keyConcat key k) x) ;;
     Return (VObj r)).
Proof. reflexivity. Qed.

Lemma values_not_object (T : SchemaField) key v :
  Lodash.isPlainObject v = false ->
  API.validateSchemaField (Values T) key v
  = Throw (Error ("Field " ++ key ++ " must be an object")).
Proof.
  intros H. change (API.validateSchemaField (Values T) key v)
    with (Schemas.values T key v API.validateSchemaField).
  unfold Schemas.values. rewrite H. reflexivity.
Qed.

(** ** [Schemas.values] *)

(** [values(T)] throws "must be an object" for a value that is not a plain
    object, arrays included.  For an object it returns an object with the
    same keys in the same order, each bound to what [T] returns for the
    entry at the path extended by its key; no key is refused.  It throws
    what [T] throws for the first entry it rejects. *)
Theorem values_keeps_keys (T : SchemaField) (key : string) :
  (forall v, Lodash.isPlainObject v = false ->
     API.validateSchemaField (Values T) key v
     = Throw (Error ("Field " ++ key ++ " must be an object")))
  /\ (forall props r,
        API.validateSchemaField (Values T) key (VObj props) = Return r <->
        exists rs,
          r = VObj rs
          /\ Forall2 (fun p q =>
                        fst q = fst p
                        /\ API.validateSchemaField T (keyConcat key (fst p)) (snd p)
                           = Return (snd q)) props rs)
  /\ (forall pre k x post e,
        (forall k' x', In (k', x') pre ->
           exists r, API.validateSchemaField T (keyConcat key k') x' = Return r) ->
        API.validateSchemaField T (keyConcat key k) x = Throw e ->
        API.validateSchemaField (Values T) key (VObj (pre ++ (k, x) :: post)%list)
        = Throw e).
Proof.
  split; [|split].
  - intros v Hv. apply values_not_object. exact Hv.
  - intros props r. rewrite values_of_object. split.
    + intros H.
      destruct (Lodash.mapValues props
                  (fun x k => API.validateSchemaField T (keyConcat key k) x))
        as [rs|e] eqn:Hmap; cbn [bind] in H; [|discriminate].
      inversion H; subst r. exists rs. split; [reflexivity|].
      apply (proj1 (mapValues_Return_iff _ _ _ _) Hmap).
    + intros (rs & -> & Hall).
      rewrite (proj2 (mapValues_Return_iff _
                        (fun x k => API.validateSchemaField T (keyConcat key k) x)
                        props rs) Hall).
      reflexivity.
  - intros pre k x post e Hpre Hx. rewrite values_of_object.
    rewrite (mapValues_Throw _
               (fun x k => API.validateSchemaField T (keyConcat key k) x)
               pre k x post e Hpre Hx).
    reflexivity.
Qed.

Lemma values_keeps_keys_witness :
  API.validateSchemaField (Values Schemas.number) "m" (VArr [VNum 1])
    = Throw (Error "Field m must be an object")
  /\ API.validateSchemaField (Values Schemas.number) "m"
       (VObj [("x", VNum 1); ("toString", VNum 2)])
     = Return (VObj [("x", VNum 1); ("toString", VNum 2)])
  /\ API.validateSchemaField (Values Schemas.number) "m"
       (VObj [("x", VNum 1); ("y", VStr "2"); ("z", VNull)])
     = Throw (Error "Field m.y must be a number").
Proof.
  pose proof (values_keeps_keys Schemas.number "m") as (Hno & Hiff & Hfirst).
  split; [|split].
  - apply Hno. reflexivity.
  - apply (proj2 (Hiff [("x", VNum 1); ("toString", VNum 2)] _)).
    exists [("x", VNum 1); ("toString", VNum 2)]. split; [reflexivity|].
    repeat constructor.
  - apply (Hfirst [("x", VNum 1)] "y" (VStr "2") [("z", VNull)]).
    + intros k' x' [Heq|[]]. inversion Heq; subst. eexists. reflexivity.
    + reflexivity.
Defined.

(** ** The order of the checks in [validateSchema] *)

(** Against an object schema, [validateSchema] first throws "must be an
    object" for every value that is not a plain object ([null], an absent
    value and arrays included); once no key is extraneous, it validates the
    fields in the order the schema object enumerates them (the order of
    [_.mapValues]: names that are array indices first, ascending, then the
    others as written), each at the path extended by its name, and throws
    what the first rejected field in that order throws.  This need not be
    the field written first: of [{ b: number(), 1: string() }] the field
    [1] is checked before [b]. *)
Theorem validateSchema_checks_in_order (fields : SchemaType) (key : string) :
  (forall obj, Lodash.isPlainObject obj = false ->
     API.validateSchema (Some fields) obj key
     = Throw (Error ("Object " ++ key ++ " must be an object")))
  /\ (forall props pre f s post e,
        fields = (pre ++ (f, s) :: post)%list ->
        (forall k x, In (k, x) props -> JS.has k fields = true) ->
        (forall f' s', In (f', s') pre ->
           exists r, API.validateSchemaField s' (keyConcat key f')
                       (JS.get (VObj props) f') = Return r) ->
        API.validateSchemaField s (keyConcat key f) (JS.get (VObj props) f) = Throw e ->
        API.validateSchema (Some fields) (VObj props) key = Throw e).
Proof.
  split.
  - intros obj Hobj. rewrite validateSchema_Some, Hobj. reflexivity.
  - intros props pre f s post e -> Hkeys Hpre Hf.
    rewrite validateSchema_Some.
    cbn [Lodash.isPlainObject Lodash.entries negb].
    rewrite forOwn_Return.
    + cbn [bind].
      rewrite (mapValues_Throw _
                 (fun s0 f0 => API.validateSchemaField s0 (keyConcat key f0)
                                 (JS.get (VObj props) f0))
                 pre f s post e Hpre Hf).
      reflexivity.
    + intros k x Hin. rewrite (Hkeys k x Hin). reflexivity.
Qed.

(** The order is that of the schema, not of the input (second part), and
    both fields of [{ b: number(), 1: string() }] reject [{ b: "x", 1: 2 }]:
    the error is that of [1] (third part). *)
Lemma validateSchema_checks_in_order_witness :
  API.validateSchema (Some Examples.person) (VArr []) "body"
    = Throw (Error "Object body must be an object")
  /\ API.validateSchema (Some Examples.person)
       (VObj [("age", VStr "old"); ("name", VStr "")]) "body"
     = Throw (Error "Field body.name cannot be an empty string")
  /\ API.validateSchema (Some Examples.indexed)
       (VObj [("1", VNum 2); ("b", VStr "x")]) ""
     = Throw (Error "Field 1 must be a string").
Proof.
  split; [|split].
  - apply (proj1 (validateSchema_checks_in_order Examples.person "body")).
    reflexivity.
  - apply (proj2 (validateSchema_checks_in_order Examples.person "body")
             [("age", VStr "old"); ("name", VStr "")] []
             "name" (Schemas.string {| Schemas.nonEmpty := Some true |})
             [("age", Optional Schemas.number)]).
    + reflexivity.
    + intros k x [Heq|[Heq|[]]]; inversion Heq; subst; reflexivity.
    + intros f' s' [].
    + reflexivity.
  - apply (proj2 (validateSchema_checks_in_order Examples.indexed "")
             [("1", VNum 2); ("b", VStr "x")] []
             "1" (Schemas.string {| Schemas.nonEmpty := None |})
             [("b", Schemas.number)]).
    + reflexivity.
    + intros k x [Heq|[Heq|[]]]; inversion Heq; subst; reflexivity.
    + intros f' s' [].
    + reflexivity.
Defined.

(** ** The errors thrown *)

(** What each of the five leaf combinators throws. *)
Lemma number_error key v e :
  API.validateSchemaField Schemas.number key v = Throw e ->
  own_error Schemas.number v key e.
Proof.
  cbn. destruct (JS.typeof v =? "number") eqn:Htype; intros H; [discriminate|].
  inversion H. apply err_number. apply String.eqb_neq. exact Htype.
Qed.

Lemma string_error opts key v e :
  API.validateSchemaField (Schemas.string opts) key v = Throw e ->
  own_error (Schemas.string opts) v key e.
Proof.
  cbn. intros H.
  destruct v;
    try (inversion H; apply err_string; intros s0 Heq; discriminate Heq).
  destruct (Schemas.nonEmpty opts) as [[|]|] eqn:Hopts; try discriminate H.
  destruct (Nat.eqb (String.length s) 0) eqn:Hlen; [|discriminate H].
  inversion H. apply err_empty_string; [exact Hopts|].
  apply Nat.eqb_eq. exact Hlen.
Qed.

Lemma literal_error l key v e :
  API.validateSchemaField (Schemas.literal l) key v = Throw e ->
  own_error (Schemas.literal l) v key e.
Proof.
  cbn. intros H.
  destruct v;
    try (inversion H; apply err_literal; intros Heq; discriminate Heq).
  destruct (s =? l) eqn:Hs; [discriminate H|].
  inversion H. apply err_literal. intros Heq. inversion Heq; subst s.
  rewrite String.eqb_refl in Hs. discriminate Hs.
Qed.

Lemma nulll_error key v e :
  API.validateSchemaField Schemas.nulll key v = Throw e ->
  own_error Schemas.nulll v key e.
Proof.
  cbn. intros H.
  destruct v; try discriminate H;
    inversion H; apply err_nulll; intros Heq; discriminate Heq.
Qed.

Lemma boolean_error opts key v e :
  API.validateSchemaField (Schemas.boolean opts) key v = Throw e ->
  own_error (Schemas.boolean opts) v key e.
Proof.
  cbn. intros H.
  destruct v;
    try (inversion H; apply err_boolean; intros b0 Heq; discriminate Heq).
  destruct opts as [[[want|]]|]; try discriminate H.
  destruct (Bool.eqb b want) eqn:Hb; [discriminate H|].
  inversion H. apply err_boolean_val.
  intros Heq. subst b. rewrite Bool.eqb_reflx in Hb. discriminate Hb.
Qed.

(** What [validateSchema] throws against an object schema: its own two
    errors, or what the field validator threw for a declared field. *)
Lemma validateSchema_Throw_inv fields obj key e :
  API.validateSchema (Some fields) obj key = Throw e ->
  (Lodash.isPlainObject obj = false
   /\ e = Error ("Object " ++ key ++ " must be an object"))
  \/ (Lodash.isPlainObject obj = true
      /\ exists k x, In (k, x) (Lodash.entries obj)
           /\ JS.has k fields = false
           /\ e = Error ("Extraneous field " ++ k))
  \/ (Lodash.isPlainObject obj = true
      /\ (forall k x, In (k, x) (Lodash.entries obj) -> JS.has k fields = true)
      /\ exists f s, In (f, s) fields
           /\ API.validateSchemaField s (keyConcat key f) (JS.get obj f) = Throw e).
Proof.
  rewrite validateSchema_Some. intros H.
  destruct (Lodash.isPlainObject obj); cbn [negb] in H;
    [|left; inversion H; split; reflexivity].
  right.
  match type of H with
  | bind ?a _ = _ => destruct a as [u|e'] eqn:Hown; cbn [bind] in H
  end.
  - right. split; [reflexivity|]. split.
    + intros k x Hin.
      destruct (forOwn_Return_inv _ _ _ _ k x Hown Hin) as [u' Hk].
      destruct (JS.has k fields); [reflexivity|discriminate Hk].
    + match type of H with
      | bind ?a _ = _ => destruct a as [out|e'] eqn:Hmap; cbn [bind] in H;
                           [discriminate|]
      end.
      inversion H; subst e'.
      destruct (mapValues_Throw_inv _ _ _ _ Hmap) as (f & s & Hin & Hf).
      exists f, s. split; assumption.
  - left. split; [reflexivity|]. inversion H; subst e'.
    destruct (forOwn_Throw_inv _ _ _ _ Hown) as (k & x & Hin & Hk).
    exists k, x. split; [exact Hin|].
    destruct (JS.has k fields); cbn [negb] in Hk; [discriminate Hk|].
    inversion Hk. split; reflexivity.
Qed.

(** An error of the schema itself is thrown where it arises; for an
    extraneous key the error thrown names an extraneous key, the first. *)
Lemma own_error_thrown S v p e :
  own_error S v p e ->
  API.validateSchemaField S p v = Throw e
  \/ exists fields k k',
       S = Plain fields /\ e = Error ("Extraneous field " ++ k)
       /\ API.validateSchemaField S p v = Throw (Error ("Extraneous field " ++ k')).
Proof.
  intros H. destruct H.
  - left. cbn. apply String.eqb_neq in H. rewrite H. reflexivity.
  - left. cbn. destruct v; try reflexivity. contradiction (H s). reflexivity.
  - left. cbn. rewrite H, H0. reflexivity.
  - left. cbn. destruct v; try reflexivity.
    destruct (s =? l) eqn:Hs; [|reflexivity].
    apply String.eqb_eq in Hs. subst s. contradiction H. reflexivity.
  - left. cbn. destruct v; try reflexivity. contradiction H. reflexivity.
  - left. cbn. destruct v; try reflexivity. contradiction (H b). reflexivity.
  - left. cbn. destruct (Bool.eqb b want) eqn:Hb; [|reflexivity].
    apply Bool.eqb_prop in Hb. contradiction.
  - left. apply values_not_object. exact H.
  - left. rewrite baseArray_array. apply array_not_array. exact H.
  - left. apply array_not_array. exact H.
  - left. rewrite validateSchemaField_Plain, validateSchema_Some, H. reflexivity.
  - right. destruct v; try discriminate H; [|destruct H0].
    cbn [Lodash.entries] in H0.
    destruct (forOwn_extraneous fields props) as (pre & k' & x' & post & _ & _ & _ & Hthrow).
    { exists k. split; [|exact H1]. apply (in_map fst _ _ H0). }
    exists fields, k, k'. split; [reflexivity|]. split; [reflexivity|].
    rewrite validateSchemaField_Plain, validateSchema_Some.
    cbn [Lodash.isPlainObject Lodash.entries negb].
    rewrite Hthrow. reflexivity.
Qed.

(** Whatever a schema built from the combinators (other than [date]) and
    plain objects throws for a value is an error of one schema [S'] inside
    it, thrown by [S'] itself for the part [v'] of the value that validation
    hands it, at the path [p] it is handed.  The message is "Field p must
    be ...", "Field p cannot be an empty string", "Object p must be an
    object", or "Extraneous field k" for an own key [k] of [v'] that is
    neither declared in [S'] nor inherited.  The path [p] is the path
    validation started at, extended by the declared name at each plain
    object and by the key at each [values] on the way to [v'], and by
    nothing at an array: an index never enters a path.  An error of the
    first alternative of an [or] is never the one thrown. *)
Theorem thrown_errors_have_four_shapes (S : SchemaField) :
  combinator_schema S ->
  forall key v e,
    API.validateSchemaField S key v = Throw e ->
    exists S' v' p,
      reaches S v key S' v' p
      /\ own_error S' v' p e
      /\ API.validateSchemaField S' p v' = Throw e.
Proof.
  induction 1 as
    [ | opts | l | | opts | T _ IH | T _ IH | A B _ IHA _ IHB
    | T _ IH | T _ IH | fields _ IH ];
    intros key v e Hthrow.
  - exists Schemas.number, v, key.
    split; [apply reach_here|]. split; [apply number_error|]; exact Hthrow.
  - exists (Schemas.string opts), v, key.
    split; [apply reach_here|]. split; [apply string_error|]; exact Hthrow.
  - exists (Schemas.literal l), v, key.
    split; [apply reach_here|]. split; [apply literal_error|]; exact Hthrow.
  - exists Schemas.nulll, v, key.
    split; [apply reach_here|]. split; [apply nulll_error|]; exact Hthrow.
  - exists (Schemas.boolean opts), v, key.
    split; [apply reach_here|]. split; [apply boolean_error|]; exact Hthrow.
  - assert (Hv : v <> VUndefined).
    { intros ->. discriminate Hthrow. }
    rewrite (optional_present T key v Hv) in Hthrow.
    destruct (IH _ _ _ Hthrow) as (S' & v' & p & Hreach & Herr & Hat).
    exists S', v', p. split; [|split; assumption].
    apply reach_optional; assumption.
  - destruct (Lodash.isPlainObject v) eqn:Hplain.
    + destruct v; try discriminate Hplain.
      * rewrite values_of_object in Hthrow.
        match type of Hthrow with
        | bind ?a _ = _ => destruct a as [rs|e'] eqn:Hmap; cbn [bind] in Hthrow;
                             [discriminate|]
        end.
        inversion Hthrow; subst e'.
        destruct (mapValues_Throw_inv _ _ _ _ Hmap) as (k & x & Hin & Hx).
        destruct (IH _ _ _ Hx) as (S' & v' & p & Hreach & Herr & Hat).
        exists S', v', p. split; [|split; assumption].
        apply (@reach_values T props key k x S' v' p); assumption.
      * discriminate Hthrow.
    + exists (Values T), v, key. split; [apply reach_here|].
      pose proof (values_not_object T key v Hplain) as Hown.
      rewrite Hown in Hthrow. inversion Hthrow; subst e.
      split; [apply err_values; exact Hplain|exact Hown].
  - change (API.validateSchemaField (Or A B) key v)
      with (try_catch (API.validateSchemaField A key v) (API.validateSchemaField B key v))
      in Hthrow.
    destruct (API.validateSchemaField A key v) as [r|eA] eqn:HA; cbn in Hthrow;
      [discriminate|].
    destruct (IHB _ _ _ Hthrow) as (S' & v' & p & Hreach & Herr & Hat).
    exists S', v', p. split; [|split; assumption].
    apply (@reach_or_second A B v key eA S' v' p); assumption.
  - destruct (Lodash.isArray v) eqn:Harr.
    + destruct v; try discriminate Harr.
      rewrite baseArray_array, array_of_list in Hthrow.
      destruct (Lodash.map elems (API.validateSchemaField T key)) as [rs|e'] eqn:Hmap;
        cbn [bind] in Hthrow; [discriminate|].
      inversion Hthrow; subst e'.
      destruct (map_Throw_inv _ _ _ Hmap) as (pre & rs & x & post & Hl & _ & Hx).
      destruct (IH _ _ _ Hx) as (S' & v' & p & Hreach & Herr & Hat).
      exists S', v', p. split; [|split; assumption].
      apply (@reach_baseArray T elems key x S' v' p); [|exact Hreach].
      rewrite Hl. apply in_elt.
    + exists (BaseArray T), v, key. split; [apply reach_here|].
      assert (Hown : API.validateSchemaField (BaseArray T) key v
                     = Throw (Error ("Field " ++ key ++ " must be an array"))).
      { rewrite baseArray_array. apply array_not_array. exact Harr. }
      rewrite Hown in Hthrow. inversion Hthrow; subst e.
      split; [apply err_baseArray; exact Harr|exact Hown].
  - destruct (Lodash.isArray v) eqn:Harr.
    + destruct v; try discriminate Harr. rewrite array_of_list in Hthrow.
      destruct (Lodash.map elems (API.validateSchemaField T key)) as [rs|e'] eqn:Hmap;
        cbn [bind] in Hthrow; [discriminate|].
      inversion Hthrow; subst e'.
      destruct (map_Throw_inv _ _ _ Hmap) as (pre & rs & x & post & Hl & _ & Hx).
      destruct (IH _ _ _ Hx) as (S' & v' & p & Hreach & Herr & Hat).
      exists S', v', p. split; [|split; assumption].
      apply (@reach_array T elems key x S' v' p); [|exact Hreach].
      rewrite Hl. apply in_elt.
    + exists (Array T), v, key. split; [apply reach_here|].
      pose proof (array_not_array T key v Harr) as Hown.
      rewrite Hown in Hthrow. inversion Hthrow; subst e.
      split; [apply err_array; exact Harr|exact Hown].
  - pose proof Hthrow as Hsame.
    rewrite validateSchemaField_Plain in Hthrow.
    destruct (validateSchema_Throw_inv _ _ _ _ Hthrow)
      as [[Hplain ->] | [(Hplain & k & x & Hin & Hk & ->)
                         | (Hplain & Hkeys & f & s & Hin & Hf)]].
    + exists (Plain fields), v, key. split; [apply reach_here|].
      split; [apply err_object; exact Hplain|exact Hsame].
    + exists (Plain fields), v, key. split; [apply reach_here|].
      split; [apply (@err_extraneous fields v key k x); assumption|exact Hsame].
    + destruct (IH f s Hin _ _ _ Hf) as (S' & v' & p & Hreach & Herr & Hat).
      exists S', v', p. split; [|split; assumption].
      apply (@reach_plain fields v key f s S' v' p); assumption.
Qed.

(** The elements of an array of numbers are handed on at the path of the
    array. *)
Lemma reaches_array_of_numbers elems key S' v' p :
  reaches (Array Schemas.number) (VArr elems) key S' v' p -> p = key.
Proof.
  intros H. inversion H as
    [ | | | | | T0 elems0 key0 x S0 v0 p0 _ Hx | ]; subst; [reflexivity|].
  inversion Hx; subst. reflexivity.
Qed.

Lemma nested_combinator_schema : combinator_schema (Plain Examples.nested).
Proof.
  apply cs_plain. intros f s [Heq|[]]. inversion Heq; subst.
  apply cs_plain. intros f' s' [Heq'|[]]. inversion Heq'; subst.
  apply cs_number.
Qed.

(** [{ a: { b: number() } }] rejects [{ a: { b: "x" } }] with the error of
    [number()] at the path [a.b]. *)
Lemma thrown_errors_have_four_shapes_witness :
  exists S' v' p,
    reaches (Plain Examples.nested) (VObj [("a", VObj [("b", VStr "x")])]) "" S' v' p
    /\ own_error S' v' p (Error "Field a.b must be a number")
    /\ API.validateSchemaField S' p v' = Throw (Error "Field a.b must be a number").
Proof.
  exact (thrown_errors_have_four_shapes (Plain Examples.nested)
           nested_combinator_schema
           "" (VObj [("a", VObj [("b", VStr "x")])])
           (Error "Field a.b must be a number") eq_refl).
Defined.

(** [array(number())] at the path [xs] rejects [[1, "x"]] with an error
    about [xs]; no error about [xs.1] arises anywhere in that array. *)
Lemma array_element_error_names_the_array :
  API.validateSchemaField (Array Schemas.number) "xs" (VArr [VNum 1; VStr "x"])
    = Throw (Error "Field xs must be a number")
  /\ ~ (exists S' v' p,
          reaches (Array Schemas.number) (VArr [VNum 1; VStr "x"]) "xs" S' v' p
          /\ own_error S' v' p (Error "Field xs.1 must be a number")).
Proof.
  split; [reflexivity|].
  intros (S' & v' & p & Hreach & Herr).
  apply reaches_array_of_numbers in Hreach. subst p.
  inversion Herr; subst;
    match goal with
    | Heq : _ = "Field xs.1 must be a number" |- _ => cbn in Heq; discriminate Heq
    end.
Qed.

(** ** What the array combinators return *)

(** [array(T)] and [baseArray(T)] return only for arrays, and what they
    return is an array of the same length whose elements are what [T]
    returned for the elements of the input, position by position.  The
    empty array is accepted whatever [T] is, even a schema that rejects
    every value. *)
Theorem array_returns_elementwise (T : SchemaField) (key : string) :
  (forall v r,
     API.validateSchemaField (Array T) key v = Return r ->
     exists l rs,
       v = VArr l /\ r = VArr rs /\ List.length rs = List.length l
       /\ Forall2 (fun x y => API.validateSchemaField T key x = Return y) l rs)
  /\ (forall v r,
     API.validateSchemaField (BaseArray T) key v = Return r ->
     exists l rs,
       v = VArr l /\ r = VArr rs /\ List.length rs = List.length l
       /\ Forall2 (fun x y => API.validateSchemaField T key x = Return y) l rs)
  /\ API.validateSchemaField (Array T) key (VArr []) = Return (VArr [])
  /\ API.validateSchemaField (BaseArray T) key (VArr []) = Return (VArr []).
Proof.
  assert (Harr : forall v r,
     API.validateSchemaField (Array T) key v = Return r ->
     exists l rs,
       v = VArr l /\ r = VArr rs /\ List.length rs = List.length l
       /\ Forall2 (fun x y => API.validateSchemaField T key x = Return y) l rs).
  { intros v r H.
    destruct v; try (rewrite array_not_array in H by reflexivity; discriminate H).
    rewrite array_of_list in H.
    destruct (Lodash.map elems (API.validateSchemaField T key)) as [rs|e] eqn:Hmap;
      cbn [bind] in H; [|discriminate H].
    inversion H; subst r. apply map_Return_inv in Hmap.
    exists elems, rs. split; [reflexivity|]. split; [reflexivity|].
    split; [|exact Hmap]. symmetry. apply (Forall2_length Hmap). }
  split; [exact Harr|]. split; [|split; reflexivity].
  intros v r. rewrite baseArray_array. apply Harr.
Qed.

Lemma array_returns_elementwise_witness :
  exists l rs,
    VArr [VNum 1; VNum 2] = VArr l /\ VArr [VNum 1; VNum 2] = VArr rs
    /\ List.length rs = List.length l
    /\ Forall2 (fun x y => API.validateSchemaField Schemas.number "xs" x = Return y) l rs.
Proof.
  exact (proj1 (array_returns_elementwise Schemas.number "xs")
           (VArr [VNum 1; VNum 2]) (VArr [VNum 1; VNum 2]) eq_refl).
Defined.

(** ** How the combinators compose *)

(** Unions nest either way: [or(or(A, B), C)] and [or(A, or(B, C))] return
    and throw the same.  [or(A, A)] is [A], [optional(optional(T))] is
    [optional(T)], and [optional] distributes over [or]. *)
Theorem combinators_compose (A B C : SchemaField) (key : string) (v : value) :
  API.validateSchemaField (Or (Or A B) C) key v
    = API.validateSchemaField (Or A (Or B C)) key v
  /\ API.validateSchemaField (Or A A) key v = API.validateSchemaField A key v
  /\ API.validateSchemaField (Optional (Optional A)) key v
     = API.validateSchemaField (Optional A) key v
  /\ API.validateSchemaField (Optional (Or A B)) key v
     = API.validateSchemaField (Or (Optional A) (Optional B)) key v.
Proof.
  split; [|split; [|split]].
  - change (try_catch (try_catch (API.validateSchemaField A key v)
                                 (API.validateSchemaField B key v))
                      (API.validateSchemaField C key v)
            = try_catch (API.validateSchemaField A key v)
                        (try_catch (API.validateSchemaField B key v)
                                   (API.validateSchemaField C key v))).
    destruct (API.validateSchemaField A key v); reflexivity.
  - change (try_catch (API.validateSchemaField A key v) (API.validateSchemaField A key v)
            = API.validateSchemaField A key v).
    destruct (API.validateSchemaField A key v); reflexivity.
  - destruct v; reflexivity.
  - destruct v; reflexivity.
Qed.

(** ** No coercion *)

(** [_.map] with an iteratee that returns its argument returns the array. *)
Lemma map_identity (f : value -> outcome value) l rs :
  Lodash.map l f = Return rs ->
  (forall x r, In x l -> f x = Return r -> r = x) ->
  rs = l.
Proof.
  intros Hmap Hid. apply map_Return_inv in Hmap.
  induction Hmap as [|x r l rs Hx _ IH].
  - reflexivity.
  - f_equal.
    + apply (Hid x r); [left; reflexivity|exact Hx].
    + apply IH. intros y ry Hin. apply Hid. right. exact Hin.
Qed.

Lemma object_free_elem elems x :
  object_free (VArr elems) = true -> In x elems -> object_free x = true.
Proof.
  induction elems as [|x' elems IH]; intros H Hin.
  - destruct Hin.
  - cbn in H. apply andb_true_iff in H. destruct H as [Hx Hrest].
    destruct Hin as [Heq|Hin].
    + subst. exact Hx.
    + apply IH; assumption.
Qed.

(** Validation changes nothing in a value without objects: a schema built
    from the combinators other than [date] that accepts a scalar, or an
    array of scalars at any depth, returns that very value. *)
Theorem accepted_scalars_unchanged (S : SchemaField) :
  combinator_schema S ->
  forall key v r,
    object_free v = true ->
    API.validateSchemaField S key v = Return r -> r = v.
Proof.
  induction 1 as
    [ | opts | l | | opts | T _ IH | T _ IH | A B _ IHA _ IHB
    | T _ IH | T _ IH | fields _ IH ];
    intros key v r Hfree Hret.
  - apply (leaf_returns_input Schemas.number key v r); auto.
  - apply (leaf_returns_input (Schemas.string opts) key v r); eauto 6.
  - apply (leaf_returns_input (Schemas.literal l) key v r); eauto 6.
  - apply (leaf_returns_input Schemas.nulll key v r); auto 6.
  - apply (leaf_returns_input (Schemas.boolean opts) key v r); eauto 8.
  - destruct v; try (rewrite optional_present in Hret by discriminate;
                     apply (IH _ _ _ Hfree Hret)).
    cbn in Hret. inversion Hret. reflexivity.
  - destruct v; try discriminate Hfree;
      rewrite values_not_object in Hret by reflexivity; discriminate Hret.
  - change (API.validateSchemaField (Or A B) key v)
      with (try_catch (API.validateSchemaField A key v) (API.validateSchemaField B key v))
      in Hret.
    destruct (API.validateSchemaField A key v) as [rA|e] eqn:HrA; cbn in Hret.
    + inversion Hret; subst rA. apply (IHA _ _ _ Hfree HrA).
    + apply (IHB _ _ _ Hfree Hret).
  - rewrite baseArray_array in Hret.
    destruct v; try (rewrite array_not_array in Hret by reflexivity; discriminate Hret).
    rewrite array_of_list in Hret.
    destruct (Lodash.map elems (API.validateSchemaField T key)) as [rs|e] eqn:Hmap;
      cbn [bind] in Hret; [|discriminate Hret].
    inversion Hret; subst r. f_equal.
    apply (map_identity _ _ _ Hmap). intros x rx Hin Hx.
    apply (IH key x rx (object_free_elem _ _ Hfree Hin) Hx).
  - destruct v; try (rewrite array_not_array in Hret by reflexivity; discriminate Hret).
    rewrite array_of_list in Hret.
    destruct (Lodash.map elems (API.validateSchemaField T key)) as [rs|e] eqn:Hmap;
      cbn [bind] in Hret; [|discriminate Hret].
    inversion Hret; subst r. f_equal.
    apply (map_identity _ _ _ Hmap). intros x rx Hin Hx.
    apply (IH key x rx (object_free_elem _ _ Hfree Hin) Hx).
  - rewrite validateSchemaField_Plain in Hret.
    destruct (validateSchema_Return_inv _ _ _ _ Hret) as (Hplain & _).
    destruct v; try discriminate Hfree; discriminate Hplain.
Qed.

Lemma accepted_scalars_unchanged_witness :
  API.validateSchemaField
    (Array (Or Schemas.number (Schemas.string {| Schemas.nonEmpty := None |})))
    "xs" (VArr [VStr "a"; VNum 1])
    = Return (VArr [VStr "a"; VNum 1])
  /\ VArr [VStr "a"; VNum 1] = VArr [VStr "a"; VNum 1].
Proof.
  split; [reflexivity|].
  exact (accepted_scalars_unchanged
           (Array (Or Schemas.number (Schemas.string {| Schemas.nonEmpty := None |})))
           (cs_array (cs_or cs_number (cs_string {| Schemas.nonEmpty := None |})))
           "xs" (VArr [VStr "a"; VNum 1]) (VArr [VStr "a"; VNum 1]) eq_refl eq_refl).
Defined.

(** ** Reviving any text *)

Section ReviveAny.

Variable JSON_parse : string -> outcome value.
Variable JSON_stringify : value -> string.

Lemma reviveRequest_cases (a : API) (text : string) :
  API.reviveRequest JSON_parse JSON_stringify a text =
    match JSON_parse (parsedText JSON_stringify text) with
    | Throw e => (["Schema validation failed for request " ++ path a], Throw e)
    | Return obj =>
        match API.validateSchema (requestSchema a) obj "" with
        | Return v => ([], Return v)
        | Throw e => (["Schema validation failed for request " ++ path a], Throw e)
        end
    end.
Proof.
  unfold API.reviveRequest, parsedText.
  destruct (JSON_parse (if text =? "" then JSON_stringify EmptyResponseValue else text));
    reflexivity.
Qed.

Lemma reviveResponse_cases (a : API) (text : string) :
  API.reviveResponse JSON_parse JSON_stringify a text =
    match JSON_parse (parsedText JSON_stringify text) with
    | Throw e => (["Schema validation failed for response " ++ path a], Throw e)
    | Return obj =>
        match API.validateSchema (responseSchema a) obj "" with
        | Return v => ([], Return v)
        | Throw e => (["Schema validation failed for response " ++ path a], Throw e)
        end
    end.
Proof.
  unfold API.reviveResponse, parsedText.
  destruct (JSON_parse (if text =? "" then JSON_stringify EmptyResponseValue else text));
    reflexivity.
Qed.

(** [reviveRequest] returns exactly the values [validateSchema] returns for
    what [JSON.parse] made of the text; it rethrows, unchanged, what either
    of the two throws, a [SyntaxError] of the parser included; and it prints
    one line naming the endpoint when it throws and nothing when it
    returns. *)
Theorem reviveRequest_validates_or_rethrows (a : API) (text : string) :
  (forall v,
     snd (API.reviveRequest JSON_parse JSON_stringify a text) = Return v <->
     exists obj, JSON_parse (parsedText JSON_stringify text) = Return obj
                 /\ API.validateSchema (requestSchema a) obj "" = Return v)
  /\ (forall e,
     snd (API.reviveRequest JSON_parse JSON_stringify a text) = Throw e <->
     JSON_parse (parsedText JSON_stringify text) = Throw e
     \/ exists obj, JSON_parse (parsedText JSON_stringify text) = Return obj
                    /\ API.validateSchema (requestSchema a) obj "" = Throw e)
  /\ (forall v,
     snd (API.reviveRequest JSON_parse JSON_stringify a text) = Return v ->
     fst (API.reviveRequest JSON_parse JSON_stringify a text) = [])
  /\ (forall e,
     snd (API.reviveRequest JSON_parse JSON_stringify a text) = Throw e ->
     fst (API.reviveRequest JSON_parse JSON_stringify a text)
     = ["Schema validation failed for request " ++ path a]).
Proof.
  rewrite reviveRequest_cases.
  destruct (JSON_parse (parsedText JSON_stringify text)) as [obj|e0].
  - destruct (API.validateSchema (requestSchema a) obj "") as [v0|e0] eqn:Hval;
      cbn [fst snd]; repeat split; try discriminate; try reflexivity.
    + intros H. exists obj. inversion H; subst. split; [reflexivity|exact Hval].
    + intros (obj' & Hobj & Hv). inversion Hobj; subst obj'. congruence.
    + intros [H|(obj' & Hobj & Hv)]; [discriminate|].
      inversion Hobj; subst obj'. congruence.
    + intros (obj' & Hobj & Hv). inversion Hobj; subst obj'. congruence.
    + intros H. right. exists obj. inversion H; subst. split; [reflexivity|exact Hval].
    + intros [H|(obj' & Hobj & Hv)]; [discriminate|].
      inversion Hobj; subst obj'. congruence.
  - cbn [fst snd]; repeat split; try discriminate; try reflexivity.
    + intros (obj' & Hobj & _). discriminate.
    + intros H. left. congruence.
    + intros [H|(obj' & Hobj & _)]; [congruence|discriminate].
Qed.

(** The same of [reviveResponse], with the response schema. *)
Theorem reviveResponse_validates_or_rethrows (a : API) (text : string) :
  (forall v,
     snd (API.reviveResponse JSON_parse JSON_stringify a text) = Return v <->
     exists obj, JSON_parse (parsedText JSON_stringify text) = Return obj
                 /\ API.validateSchema (responseSchema a) obj "" = Return v)
  /\ (forall e,
     snd (API.reviveResponse JSON_parse JSON_stringify a text) = Throw e <->
     JSON_parse (parsedText JSON_stringify text) = Throw e
     \/ exists obj, JSON_parse (parsedText JSON_stringify text) = Return obj
                    /\ API.validateSchema (responseSchema a) obj "" = Throw e)
  /\ (forall v,
     snd (API.reviveResponse JSON_parse JSON_stringify a text) = Return v ->
     fst (API.reviveResponse JSON_parse JSON_stringify a text) = [])
  /\ (forall e,
     snd (API.reviveResponse JSON_parse JSON_stringify a text) = Throw e ->
     fst (API.reviveResponse JSON_parse JSON_stringify a text)
     = ["Schema validation failed for response " ++ path a]).
Proof.
  rewrite reviveResponse_cases.
  destruct (JSON_parse (parsedText JSON_stringify text)) as [obj|e0].
  - destruct (API.validateSchema (responseSchema a) obj "") as [v0|e0] eqn:Hval;
      cbn [fst snd]; repeat split; try discriminate; try reflexivity.
    + intros H. exists obj. inversion H; subst. split; [reflexivity|exact Hval].
    + intros (obj' & Hobj & Hv). inversion Hobj; subst obj'. congruence.
    + intros [H|(obj' & Hobj & Hv)]; [discriminate|].
      inversion Hobj; subst obj'. congruence.
    + intros (obj' & Hobj & Hv). inversion Hobj; subst obj'. congruence.
    + intros H. right. exists obj. inversion H; subst. split; [reflexivity|exact Hval].
    + intros [H|(obj' & Hobj & Hv)]; [discriminate|].
      inversion Hobj; subst obj'. congruence.
  - cbn [fst snd]; repeat split; try discriminate; try reflexivity.
    + intros (obj' & Hobj & _). discriminate.
    + intros H. left. congruence.
    + intros [H|(obj' & Hobj & _)]; [congruence|discriminate].
Qed.

End ReviveAny.

Lemma reviveRequest_validates_or_rethrows_witness :
  snd (API.reviveRequest Examples.parseSentinel Examples.stringifySentinel
         Examples.ping Examples.sentinelText)
    = Return EmptyResponseValue
  /\ snd (API.reviveRequest Examples.parseSentinel Examples.stringifySentinel
            Examples.ping "{")
     = Throw (SyntaxError "Unexpected token")
  /\ fst (API.reviveRequest Examples.parseSentinel Examples.stringifySentinel
            Examples.ping "{")
     = ["Schema validation failed for request /ping"].
Proof.
  pose proof (reviveRequest_validates_or_rethrows
                Examples.parseSentinel Examples.stringifySentinel Examples.ping)
    as H.
  split; [|split].
  - apply (proj2 (proj1 (H Examples.sentinelText) EmptyResponseValue)).
    exists EmptyResponseValue. split; reflexivity.
  - apply (proj2 (proj1 (proj2 (H "{")) (SyntaxError "Unexpected token"))).
    left. reflexivity.
  - apply (proj2 (proj2 (proj2 (H "{"))) (SyntaxError "Unexpected token")).
    reflexivity.
Defined.

Lemma reviveResponse_validates_or_rethrows_witness :
  snd (API.reviveResponse Examples.parseSentinel Examples.stringifySentinel
         Examples.flag Examples.sentinelText)
    = Return EmptyResponseValue
  /\ fst (API.reviveResponse Examples.parseSentinel Examples.stringifySentinel
            Examples.flag Examples.sentinelText)
     = [].
Proof.
  pose proof (reviveResponse_validates_or_rethrows
                Examples.parseSentinel Examples.stringifySentinel Examples.flag
                Examples.sentinelText)
    as (Hret & _ & Hquiet & _).
  split.
  - apply (proj2 (Hret EmptyResponseValue)).
    exists EmptyResponseValue. split; reflexivity.
  - apply (Hquiet EmptyResponseValue). reflexivity.
Defined.

(** * Properties of the callers *)

(** ** The wrapped handler of [server/express.ts] *)

Section ServerProperties.

Variable ExpressRequest : Type.
Variable req_body : ExpressRequest -> string.
Variable ExpressHandler : Type.
Variable JSON_parse : string -> outcome value.
Variable JSON_stringify : value -> string.

Lemma respond_one_call (this : Endpoint) (apiResponse : value) (done : list Express.call) :
  Express.respond this apiResponse = Normal done -> exists c, done = [c].
Proof.
  unfold Express.respond. intros H.
  destruct (JS.typeof apiResponse =? "number"); [inversion H; eauto|].
  destruct (isNullish apiResponse).
  - destruct (negb (responseIsEmptySchema this)); [discriminate|inversion H; eauto].
  - destruct (Express.isErrorResponse apiResponse) as [[|]|]; inversion H; eauto.
Qed.

(** The wrapped handler makes at most one call on the response (the calls
    on the response being taken to return), and not every request is
    answered.  It makes exactly one call when the request
    does not revive (the fixed reply 400 "Parsing request failed") and when
    the handler returns a promise that settles: the fixed reply 500
    "internal server error" when the promise is rejected or the callback of
    [then] throws, else what the value the promise is fulfilled with calls
    for.  It makes no call when the user extractor throws or the handler
    throws before it returns its promise, both of which are called outside
    any [try], so that the exception escapes; and none when the promise of
    the handler never settles.  The text of a validation error is printed,
    never sent. *)
Theorem wrap_answers_once (this : Endpoint) (handler : Express.Handler)
        (userExtractor : option (Express.UserExtractor ExpressRequest))
        (req : ExpressRequest) :
  ((exists lines e,
      API.reviveRequest JSON_parse JSON_stringify (api this) (req_body req)
      = (lines, Throw e)
      /\ Express.calls (Express.wrap req_body JSON_parse JSON_stringify this handler userExtractor req)
         = [Express.status_send (VNum 400)
              (VObj [("error", VStr "Parsing request failed")])]
      /\ Express.uncaught (Express.wrap req_body JSON_parse JSON_stringify this handler userExtractor req)
         = None)
   \/ exists lines apiRequest,
        API.reviveRequest JSON_parse JSON_stringify (api this) (req_body req)
        = (lines, Return apiRequest)
        /\ ((exists r,
               match userExtractor with
               | Some extractor => extractor req
               | None => Normal VNull
               end = Abrupt r
               /\ Express.calls (Express.wrap req_body JSON_parse JSON_stringify this handler userExtractor req) = []
               /\ Express.uncaught (Express.wrap req_body JSON_parse JSON_stringify this handler userExtractor req) = Some r)
            \/ exists user,
                 match userExtractor with
                 | Some extractor => extractor req
                 | None => Normal VNull
                 end = Normal user
                 /\ ((exists r,
                        handler apiRequest user = Abrupt r
                        /\ Express.calls (Express.wrap req_body JSON_parse JSON_stringify this handler userExtractor req) = []
                        /\ Express.uncaught (Express.wrap req_body JSON_parse JSON_stringify this handler userExtractor req) = Some r)
                     \/ (handler apiRequest user = Normal Pending
                         /\ Express.calls (Express.wrap req_body JSON_parse JSON_stringify this handler userExtractor req) = []
                         /\ Express.uncaught (Express.wrap req_body JSON_parse JSON_stringify this handler userExtractor req) = None)
                     \/ exists settled c,
                          handler apiRequest user = Normal (Settled settled)
                          /\ Express.calls (Express.wrap req_body JSON_parse JSON_stringify this handler userExtractor req) = [c]
                          /\ Express.uncaught (Express.wrap req_body JSON_parse JSON_stringify this handler userExtractor req) = None
                          /\ ((c = Express.status_send (VNum 500)
                                     (VObj [("error", VStr "internal server error")])
                               /\ exists err,
                                    settled = Abrupt err
                                    \/ exists apiResponse,
                                         settled = Normal apiResponse
                                         /\ Express.respond this apiResponse = Abrupt err)
                              \/ exists apiResponse,
                                   settled = Normal apiResponse
                                   /\ Express.respond this apiResponse = Normal [c]))))
  /\ (forall lines apiRequest user,
        API.reviveRequest JSON_parse JSON_stringify (api this) (req_body req)
        = (lines, Return apiRequest) ->
        match userExtractor with
        | Some extractor => extractor req
        | None => Normal VNull
        end = Normal user ->
        (forall settled,
           handler apiRequest user = Normal (Settled settled) ->
           Express.uncaught (Express.wrap req_body JSON_parse JSON_stringify this handler userExtractor req) = None
           /\ exists c,
                Express.calls (Express.wrap req_body JSON_parse JSON_stringify this handler userExtractor req) = [c])
        /\ (forall r,
              handler apiRequest user = Abrupt r ->
              Express.wrap req_body JSON_parse JSON_stringify this handler userExtractor req
              = {| Express.out := List.map Express.Line lines;
                   Express.calls := [];
                   Express.uncaught := Some r |})
        /\ (handler apiRequest user = Normal Pending ->
            Express.wrap req_body JSON_parse JSON_stringify this handler userExtractor req
            = {| Express.out := List.map Express.Line lines;
                 Express.calls := [];
                 Express.uncaught := None |})).
Proof.
  split.
  - unfold Express.wrap.
    destruct (API.reviveRequest JSON_parse JSON_stringify (api this) (req_body req))
      as [lines [apiRequest|e]].
    + right. exists lines, apiRequest. split; [reflexivity|].
      destruct (match userExtractor with
                | Some extractor => extractor req
                | None => Normal VNull
                end) as [user|r].
      * right. exists user. split; [reflexivity|].
        destruct (handler apiRequest user) as [[[apiResponse|err]|]|r].
        -- right. right.
           destruct (Express.respond this apiResponse) as [done|err] eqn:Hr.
           ++ destruct (respond_one_call _ _ _ Hr) as [c ->].
              exists (Normal apiResponse), c.
              split; [reflexivity|]. split; [reflexivity|]. split; [reflexivity|].
              right. exists apiResponse. split; [reflexivity|exact Hr].
           ++ exists (Normal apiResponse). eexists.
              split; [reflexivity|]. split; [reflexivity|]. split; [reflexivity|].
              left. split; [reflexivity|]. exists err. right.
              exists apiResponse. split; [reflexivity|exact Hr].
        -- right. right. exists (Abrupt err). eexists.
           split; [reflexivity|]. split; [reflexivity|]. split; [reflexivity|].
           left. split; [reflexivity|]. exists err. left. reflexivity.
        -- right. left. split; [reflexivity|]. split; reflexivity.
        -- left. exists r. split; [reflexivity|]. split; reflexivity.
      * left. exists r. split; [reflexivity|]. split; reflexivity.
    + left. exists lines, e. split; [reflexivity|]. split; reflexivity.
  - intros lines apiRequest user Hrevive Huser. unfold Express.wrap.
    rewrite Hrevive, Huser. split; [|split].
    + intros settled Hh. rewrite Hh.
      destruct settled as [apiResponse|err].
      * destruct (Express.respond this apiResponse) as [done|err] eqn:Hr.
        -- destruct (respond_one_call _ _ _ Hr) as [c ->].
           split; [reflexivity|]. exists c. reflexivity.
        -- split; [reflexivity|]. eexists. reflexivity.
      * split; [reflexivity|]. eexists. reflexivity.
    + intros r Hh. rewrite Hh. reflexivity.
    + intros Hh. rewrite Hh. reflexivity.
Qed.

(** A request that does not revive is answered 400 without the user
    extractor or the handler being run: the outcome is the same whatever
    they are, and the error is printed after the line of
    [reviveRequest]. *)
Theorem wrap_rejects_unrevived_request (this : Endpoint) (req : ExpressRequest)
        (lines : console) (e : exn) :
  API.reviveRequest JSON_parse JSON_stringify (api this) (req_body req)
    = (lines, Throw e) ->
  forall handler userExtractor,
    Express.wrap req_body JSON_parse JSON_stringify this handler userExtractor req =
      {| Express.out :=
           (List.map Express.Line lines
            ++ [Express.LineWith "Parsing request failed" (Thrown e)])%list;
         Express.calls :=
           [Express.status_send (VNum 400)
              (VObj [("error", VStr "Parsing request failed")])];
         Express.uncaught := None |}.
Proof.
  intros Hrevive handler userExtractor. unfold Express.wrap.
  rewrite Hrevive. reflexivity.
Qed.

(** What the promise of the handler is fulfilled with is not validated
    against the response schema:
    an object is sent as it is with status 200 whatever the schema, except
    that every object with a key [code] and a key [message] is sent as an
    error, with its [code] as status and [{ error: message }] as body. *)
Theorem wrap_sends_object_unvalidated (this : Endpoint) (handler : Express.Handler)
        (userExtractor : option (Express.UserExtractor ExpressRequest))
        (req : ExpressRequest) (lines : console) (apiRequest user : value)
        (props : list (string * value)) :
  API.reviveRequest JSON_parse JSON_stringify (api this) (req_body req)
    = (lines, Return apiRequest) ->
  match userExtractor with
  | Some extractor => extractor req
  | None => Normal VNull
  end = Normal user ->
  handler apiRequest user = Normal (Settled (Normal (VObj props))) ->
  Express.wrap req_body JSON_parse JSON_stringify this handler userExtractor req =
    {| Express.out := List.map Express.Line lines;
       Express.calls :=
         [match JS.own "code" props, JS.own "message" props with
          | Some code, Some message =>
              Express.status_send code (VObj [("error", message)])
          | _, _ => Express.status_send (VNum 200) (VObj props)
          end];
       Express.uncaught := None |}.
Proof.
  intros Hrevive Huser Hhandler. unfold Express.wrap.
  rewrite Hrevive, Huser, Hhandler.
  unfold Express.respond, Express.isErrorResponse, JS.has, JS.get.
  cbn [JS.typeof String.eqb Ascii.eqb Bool.eqb isNullish].
  destruct (JS.own "code" props) as [code|]; destruct (JS.own "message" props) as [message|];
    reflexivity.
Qed.

End ServerProperties.

(** ** Registration in [server/express.ts] *)

Section Registration.

Variable ExpressRequest : Type.
Variable req_user : ExpressRequest -> value.
Variable ExpressHandler : Type.

Lemma exec_app (cs1 cs2 : list (@Express.command ExpressRequest ExpressHandler)) s :
  Express.exec req_user (cs1 ++ cs2)%list s
  = Express.exec req_user cs2 (Express.exec req_user cs1 s).
Proof. unfold Express.exec. apply fold_left_app. Qed.

Lemma exec_cons c (cs : list (@Express.command ExpressRequest ExpressHandler)) s :
  Express.exec req_user (c :: cs) s
  = Express.exec req_user cs (Express.step req_user c s).
Proof. reflexivity. Qed.

(** Routes are only added, at the end. *)
Lemma exec_routes_grow (cs : list (@Express.command ExpressRequest ExpressHandler)) s :
  exists later, snd (Express.exec req_user cs s) = (snd s ++ later)%list.
Proof.
  revert s. induction cs as [|c cs IH]; intros s.
  - exists []. cbn. rewrite app_nil_r. reflexivity.
  - rewrite exec_cons. destruct (IH (Express.step req_user c s)) as [later Hlater].
    rewrite Hlater. destruct c; cbn [Express.step snd]; eauto.
    unfold Express.register. rewrite <- app_assoc. eauto.
Qed.

Lemma exec_middleware (cs : list (@Express.command ExpressRequest ExpressHandler)) s :
  Express.middleware (fst (Express.exec req_user cs s))
  = (Express.middleware (fst s) ++ Express.middleware_of cs)%list.
Proof.
  revert s. induction cs as [|c cs IH]; intros s.
  - cbn. rewrite app_nil_r. reflexivity.
  - rewrite exec_cons, IH. destruct c; cbn; try reflexivity.
    rewrite <- app_assoc. reflexivity.
Qed.

Lemma exec_userExtractor (cs : list (@Express.command ExpressRequest ExpressHandler)) s :
  Express.userExtractor (fst (Express.exec req_user cs s))
  = fold_left
      (fun last c =>
         match c with
         | @Express.RegisterUserExtractor _ _ extractor => Some extractor
         | @Express.RegisterPassportUserExtractor _ _ =>
             Some (fun req => Normal (req_user req))
         | _ => last
         end) cs (Express.userExtractor (fst s)).
Proof.
  revert s. induction cs as [|c cs IH]; intros s.
  - reflexivity.
  - rewrite exec_cons, IH. destruct c; reflexivity.
Qed.

(** An endpoint gets the middleware and the user extractor registered
    before it, and keeps them: its route lists the middleware registered so
    far, in order, then its own, then the wrapped handler with the extractor
    registered last before it ([undefined] if none was), whatever is
    registered afterwards. *)
Theorem register_uses_what_came_before (cs1 cs2 : list (@Express.command ExpressRequest ExpressHandler)) (this : Endpoint)
        (handler : Express.Handler) (middlewares : list ExpressHandler) :
  exists later,
    snd (Express.exec req_user (cs1 ++ @Express.Register ExpressRequest ExpressHandler this handler middlewares :: cs2)%list
           (@Express.initial ExpressRequest ExpressHandler, []))
    = (snd (Express.exec req_user cs1 (@Express.initial ExpressRequest ExpressHandler, []))
       ++ (path (api this),
           List.map (@Express.Middleware ExpressRequest ExpressHandler) (Express.middleware_of cs1)
           ++ List.map (@Express.Middleware ExpressRequest ExpressHandler) middlewares
           ++ [@Express.Wrapped ExpressRequest ExpressHandler this handler (Express.extractor_of req_user cs1)])
       :: later)%list.
Proof.
  rewrite exec_app, exec_cons.
  destruct (exec_routes_grow cs2
              (Express.step req_user (@Express.Register ExpressRequest ExpressHandler this handler middlewares)
                 (Express.exec req_user cs1
                    (@Express.initial ExpressRequest ExpressHandler, []))))
    as [later Hlater].
  exists later. rewrite Hlater. cbn [Express.step snd fst].
  unfold Express.register.
  rewrite exec_middleware, exec_userExtractor. cbn [fst Express.initial
    Express.middleware Express.userExtractor app].
  rewrite <- app_assoc. reflexivity.
Qed.

End Registration.

(** ** [apiFetch] of [client/client.ts] *)

Section ClientProperties.

Variable JSON_parse : string -> outcome value.
Variable JSON_stringify : value -> string.
Variable fetch : string -> option string -> completion Client.FetchResult.

(** [apiFetch] resolves in two cases only: with [null], for a status 204
    when the response schema is [emptySchema]; and, for a status 200 when it
    is not, with what [validateSchema] returns against the response schema
    for the parsed body.  It never hands out a body it did not validate;
    with [emptySchema] a status 200 is always rejected. *)
Theorem apiFetch_resolves_validated (this : Endpoint) (body : value)
        (onReauth : option (completion unit)) (v : value) :
  Client.result (Client.apiFetch JSON_parse JSON_stringify fetch this body onReauth)
    = Normal v
  <->
  exists res,
    Client.fetched JSON_stringify fetch this body = Normal res
    /\ ((responseIsEmptySchema this = true /\ Client.status res = 204%Z /\ v = VNull)
        \/ (responseIsEmptySchema this = false /\ Client.status res = 200%Z
            /\ exists t obj,
                 Client.text res = Normal t
                 /\ JSON_parse (parsedText JSON_stringify t) = Return obj
                 /\ API.validateSchema (responseSchema (api this)) obj "" = Return v)).
Proof.
  unfold Client.apiFetch.
  destruct (Client.fetched JSON_stringify fetch this body)
    as [res|r]; [|split; [discriminate|intros (res & Hres & _); discriminate]].
  destruct (Z.eqb_spec (Client.status res) 204) as [H204|H204].
  - rewrite andb_true_r.
    destruct (responseIsEmptySchema this) eqn:Hflag; cbn [Client.result Client.rejected].
    + split.
      * intros H. inversion H. exists res. split; [reflexivity|]. left. auto.
      * intros (res' & Hres & [(_ & _ & ->)|(Hf & _)]); [reflexivity|discriminate].
    + split; [discriminate|].
      intros (res' & Hres & [(Hf & _)|(_ & H200 & _)]); [discriminate|].
      inversion Hres; subst res'. congruence.
  - rewrite andb_false_r.
    destruct (Z.eqb_spec (Client.status res) 401) as [H401|H401].
    + destruct onReauth as [[u|r]|]; cbn [Client.result Client.rejected].
      * split; [discriminate|].
        intros (res' & Hres & [(_ & H & _)|(_ & H & _)]);
          inversion Hres; subst res'; congruence.
      * split; [discriminate|].
        intros (res' & Hres & [(_ & H & _)|(_ & H & _)]);
          inversion Hres; subst res'; congruence.
      * destruct (Z.eqb_spec (Client.status res) 200) as [H200|H200]; [congruence|].
        cbn [negb]. split.
        -- destruct (Client.json res) as [r|r]; [|discriminate].
           destruct (Client.error_of r) as [err|t]; [|discriminate].
           destruct (truthy err); discriminate.
        -- intros (res' & Hres & [(_ & H & _)|(_ & H & _)]);
             inversion Hres; subst res'; congruence.
    + destruct (Z.eqb_spec (Client.status res) 200) as [H200|H200]; cbn [negb].
      * destruct (responseIsEmptySchema this) eqn:Hflag;
          cbn [Client.result Client.rejected].
        -- split; [discriminate|].
           intros (res' & Hres & [(_ & H & _)|(Hf & _)]);
             inversion Hres; subst res'; congruence.
        -- destruct (Client.text res) as [t|r] eqn:Htext;
             cbn [Client.result Client.rejected].
           ++ rewrite reviveResponse_cases.
              destruct (JSON_parse (parsedText JSON_stringify t)) as [obj|e] eqn:Hparse.
              ** destruct (API.validateSchema (responseSchema (api this)) obj "")
                   as [v0|e] eqn:Hval; cbn [Client.result]; split.
                 --- intros H. inversion H; subst v0. exists res.
                     split; [reflexivity|]. right. split; [reflexivity|].
                     split; [exact H200|]. exists t, obj. auto.
                 --- intros (res' & Hres & [(Hf & _)|(_ & _ & t' & obj' & Ht & Hp & Hv)]);
                       [discriminate|].
                     inversion Hres; subst res'. congruence.
                 --- discriminate.
                 --- intros (res' & Hres & [(Hf & _)|(_ & _ & t' & obj' & Ht & Hp & Hv)]);
                       [discriminate|].
                     inversion Hres; subst res'. congruence.
              ** cbn [Client.result]. split; [discriminate|].
                 intros (res' & Hres & [(Hf & _)|(_ & _ & t' & obj' & Ht & Hp & Hv)]);
                   [discriminate|].
                 inversion Hres; subst res'. congruence.
           ++ split; [discriminate|].
              intros (res' & Hres & [(Hf & _)|(_ & _ & t' & obj' & Ht & _)]);
                [discriminate|].
              inversion Hres; subst res'. congruence.
      * split.
        -- destruct (Client.json res) as [r|r]; [|discriminate].
           destruct (Client.error_of r) as [err|t]; [|discriminate].
           destruct (truthy err); discriminate.
        -- intros (res' & Hres & [(_ & H & _)|(_ & H & _)]);
             inversion Hres; subst res'; congruence.
Qed.

(** The reauthentication handler runs at most once, and exactly when the
    status is 401 and a handler is registered; the promise is then
    rejected, with what the handler threw or else with the [APIError]
    "Reauth required", and the body is not read. *)
Theorem apiFetch_reauthenticates_on_401 (this : Endpoint) (body : value)
        (onReauth : option (completion unit)) :
  (Client.reauthCalls
     (Client.apiFetch JSON_parse JSON_stringify fetch this body onReauth) = 1
   <-> exists res h,
         Client.fetched JSON_stringify fetch this body = Normal res /\ Client.status res = 401%Z
         /\ onReauth = Some h)
  /\ (Client.reauthCalls
        (Client.apiFetch JSON_parse JSON_stringify fetch this body onReauth) <> 1 ->
      Client.reauthCalls
        (Client.apiFetch JSON_parse JSON_stringify fetch this body onReauth) = 0)
  /\ (forall res h,
        Client.fetched JSON_stringify fetch this body = Normal res -> Client.status res = 401%Z ->
        onReauth = Some h ->
        Client.apiFetch JSON_parse JSON_stringify fetch this body onReauth
        = Client.rejected 1
            match h with
            | Abrupt r => r
            | Normal _ => APIError 401 (Some (VStr "Reauth required"))
            end).
Proof.
  unfold Client.apiFetch.
  destruct (Client.fetched JSON_stringify fetch this body)
    as [res|r].
  2: { split; [split; [discriminate|intros (res & h & H & _); discriminate]|].
       split; [reflexivity|]. intros res h H. discriminate. }
  destruct (Z.eqb_spec (Client.status res) 204) as [H204|H204].
  - assert (Hzero : forall b : bool,
              Client.reauthCalls
                (if b then {| Client.reauthCalls := 0; Client.out := [];
                              Client.result := Normal VNull |}
                 else Client.rejected 0
                        (APIError (Client.status res)
                           (Some (VStr ("Received a 204 but required a response for "
                                        ++ path (api this)))))) = 0).
    { intros [|]; reflexivity. }
    rewrite andb_true_r.
    split; [split|split].
    + rewrite Hzero. discriminate.
    + intros (res' & h & Hres & H401 & _). inversion Hres; subst res'. congruence.
    + intros _. apply Hzero.
    + intros res' h Hres H401. inversion Hres; subst res'. congruence.
  - rewrite andb_false_r.
    destruct (Z.eqb_spec (Client.status res) 401) as [H401|H401].
    + destruct onReauth as [[u|r]|].
      * split; [split; [intros _; exists res, (Normal u); auto|reflexivity]|].
        split; [intros H; contradiction H; reflexivity|].
        intros res' h Hres _ Hh. inversion Hres; subst res'.
        inversion Hh; subst h. rewrite H401. reflexivity.
      * split; [split; [intros _; exists res, (Abrupt r); auto|reflexivity]|].
        split; [intros H; contradiction H; reflexivity|].
        intros res' h Hres _ Hh. inversion Hres; subst res'.
        inversion Hh; subst h. reflexivity.
      * destruct (Z.eqb_spec (Client.status res) 200) as [H200|H200]; [congruence|].
        cbn [negb].
        assert (Hzero :
                  Client.reauthCalls
                    match Client.json res with
                    | Normal r =>
                        match Client.error_of r with
                        | Normal err =>
                            if truthy err
                            then Client.rejected 0 (APIError (Client.status res) (Some err))
                            else Client.rejected 0 (APIError (Client.status res) None)
                        | Abrupt t => Client.rejected 0 t
                        end
                    | Abrupt _ => Client.rejected 0 (APIError (Client.status res) None)
                    end = 0).
        { destruct (Client.json res) as [r|r]; [|reflexivity].
          destruct (Client.error_of r) as [err|t]; [|reflexivity].
          destruct (truthy err); reflexivity. }
        split; [split|split].
        -- rewrite Hzero. discriminate.
        -- intros (res' & h & _ & _ & Hh). discriminate.
        -- intros _. exact Hzero.
        -- intros res' h _ _ Hh. discriminate.
    + assert (Hzero :
                Client.reauthCalls
                  (if negb (Client.status res =? 200)%Z
                   then
                     match Client.json res with
                     | Normal r =>
                         match Client.error_of r with
                         | Normal err =>
                             if truthy err
                             then Client.rejected 0 (APIError (Client.status res) (Some err))
                             else Client.rejected 0 (APIError (Client.status res) None)
                         | Abrupt t => Client.rejected 0 t
                         end
                     | Abrupt _ => Client.rejected 0 (APIError (Client.status res) None)
                     end
                   else
                     if responseIsEmptySchema this
                     then Client.rejected 0
                            (APIError (Client.status res)
                               (Some (VStr ("Unexpected response for "
                                            ++ path (api this)))))
                     else
                       match Client.text res with
                       | Normal t =>
                           let (lines, o) :=
                             API.reviveResponse JSON_parse JSON_stringify (api this) t in
                           match o with
                           | Return v =>
                               {| Client.reauthCalls := 0; Client.out := lines;
                                  Client.result := Normal v |}
                           | Throw e =>
                               {| Client.reauthCalls := 0; Client.out := lines;
                                  Client.result := Abrupt (Thrown e) |}
                           end
                       | Abrupt r => Client.rejected 0 r
                       end) = 0).
      { destruct (negb (Client.status res =? 200)%Z).
        - destruct (Client.json res) as [r|r]; [|reflexivity].
          destruct (Client.error_of r) as [err|t]; [|reflexivity].
          destruct (truthy err); reflexivity.
        - destruct (responseIsEmptySchema this); [reflexivity|].
          destruct (Client.text res) as [t|r]; [|reflexivity].
          destruct (API.reviveResponse JSON_parse JSON_stringify (api this) t)
            as [lines [v|e]]; reflexivity. }
      split; [split|split].
      * rewrite Hzero. discriminate.
      * intros (res' & h & Hres & H & _). inversion Hres; subst res'. congruence.
      * intros _. exact Hzero.
      * intros res' h Hres H. inversion Hres; subst res'. congruence.
Qed.

End ClientProperties.

(** ** The callers at concrete requests *)

(** On the empty request of an endpoint without payload: a handler that
    throws leaves the request unanswered and the exception uncaught, one
    whose promise never settles leaves it unanswered, one whose promise is
    rejected has it answered once. *)
Lemma wrap_answers_once_witness :
  Express.wrap (fun req : string => req)
    Examples.parseSentinel Examples.stringifySentinel
    CallerExamples.ping CallerExamples.throws None ""
  = {| Express.out := [];
       Express.calls := [];
       Express.uncaught := Some (Other (VStr "not ready")) |}
  /\ Express.wrap (fun req : string => req)
       Examples.parseSentinel Examples.stringifySentinel
       CallerExamples.ping CallerExamples.hangs None ""
     = {| Express.out := []; Express.calls := []; Express.uncaught := None |}
  /\ Express.uncaught
       (Express.wrap (fun req : string => req)
          Examples.parseSentinel Examples.stringifySentinel
          CallerExamples.ping CallerExamples.rejects None "") = None
  /\ exists c,
       Express.calls
         (Express.wrap (fun req : string => req)
            Examples.parseSentinel Examples.stringifySentinel
            CallerExamples.ping CallerExamples.rejects None "") = [c].
Proof.
  split; [|split].
  - apply (proj1 (proj2 (proj2 (wrap_answers_once string (fun req => req)
                   Examples.parseSentinel Examples.stringifySentinel
                   CallerExamples.ping CallerExamples.throws None "")
                 [] EmptyResponseValue VNull eq_refl eq_refl))).
    reflexivity.
  - apply (proj2 (proj2 (proj2 (wrap_answers_once string (fun req => req)
                   Examples.parseSentinel Examples.stringifySentinel
                   CallerExamples.ping CallerExamples.hangs None "")
                 [] EmptyResponseValue VNull eq_refl eq_refl))).
    reflexivity.
  - apply (proj1 (proj2 (wrap_answers_once string (fun req => req)
                   Examples.parseSentinel Examples.stringifySentinel
                   CallerExamples.ping CallerExamples.rejects None "")
                 [] EmptyResponseValue VNull eq_refl eq_refl)
             (Abrupt (Other (VStr "not ready")))).
    reflexivity.
Defined.

Lemma wrap_rejects_unrevived_request_witness :
  Express.wrap (fun req : string => req)
    Examples.parseSentinel Examples.stringifySentinel
    CallerExamples.ping CallerExamples.gone None "{"
  = {| Express.out :=
         [Express.Line "Schema validation failed for request /ping";
          Express.LineWith "Parsing request failed"
            (Thrown (SyntaxError "Unexpected token"))];
       Express.calls :=
         [Express.status_send (VNum 400)
            (VObj [("error", VStr "Parsing request failed")])];
       Express.uncaught := None |}.
Proof.
  exact (wrap_rejects_unrevived_request string (fun req => req)
           Examples.parseSentinel Examples.stringifySentinel
           CallerExamples.ping "{"
           ["Schema validation failed for request /ping"]
           (SyntaxError "Unexpected token") eq_refl
           CallerExamples.gone None).
Defined.

Lemma wrap_sends_object_unvalidated_witness :
  Express.wrap (fun req : string => req)
    Examples.parseSentinel Examples.stringifySentinel
    CallerExamples.flag CallerExamples.gone None Examples.sentinelText
  = {| Express.out := [];
       Express.calls :=
         [Express.status_send (VNum 410) (VObj [("error", VStr "gone")])];
       Express.uncaught := None |}.
Proof.
  exact (wrap_sends_object_unvalidated string (fun req => req)
           Examples.parseSentinel Examples.stringifySentinel
           CallerExamples.flag CallerExamples.gone None Examples.sentinelText
           [] EmptyResponseValue VNull
           [("code", VNum 410); ("message", VStr "gone")]
           eq_refl eq_refl eq_refl).
Defined.

Lemma apiFetch_resolves_validated_witness :
  Client.result
    (Client.apiFetch Examples.parseSentinel Examples.stringifySentinel
       CallerExamples.answers200 CallerExamples.flag VUndefined None)
  = Normal EmptyResponseValue.
Proof.
  apply (proj2 (apiFetch_resolves_validated
                  Examples.parseSentinel Examples.stringifySentinel
                  CallerExamples.answers200 CallerExamples.flag VUndefined None
                  EmptyResponseValue)).
  eexists. split; [reflexivity|]. right.
  split; [reflexivity|]. split; [reflexivity|].
  exists Examples.sentinelText, EmptyResponseValue.
  split; [reflexivity|]. split; reflexivity.
Defined.

(** ** [emptySchema] *)

(** [emptySchema] accepts exactly the plain objects that bind
    [isEmptyResponse] to [true] and have no other key, names inherited from
    [Object.prototype] apart; and whatever it accepts, what validation
    returns is the empty-response value. *)
Theorem emptySchema_returns_the_sentinel (v : value) (key : string) (r : value) :
  API.validateSchema (Some emptySchema) v key = Return r <->
  Lodash.isPlainObject v = true
  /\ (forall k x, In (k, x) (Lodash.entries v) ->
        k = "isEmptyResponse" \/ JS.inherited k = true)
  /\ JS.get v "isEmptyResponse" = VBool true
  /\ r = EmptyResponseValue.
Proof.
  split.
  - intros H.
    destruct (validateSchema_Return_inv _ _ _ _ H) as (Hplain & Hkeys & out & Hmap & ->).
    split; [exact Hplain|]. split.
    + intros k x Hin. specialize (Hkeys k x Hin).
      unfold JS.has, emptySchema in Hkeys. cbn [JS.own] in Hkeys.
      destruct ("isEmptyResponse" =? k) eqn:Hk.
      * left. symmetry. apply String.eqb_eq. exact Hk.
      * right. exact Hkeys.
    + unfold emptySchema in Hmap. rewrite mapValues_cons, mapValues_nil in Hmap.
      cbn [API.validateSchemaField Schemas.boolean] in Hmap.
      destruct (JS.get v "isEmptyResponse") as [| |[|]| | | | | | |];
        cbn in Hmap; try discriminate Hmap.
      inversion Hmap. split; reflexivity.
  - intros (Hplain & Hkeys & Hget & ->).
    destruct v; try discriminate Hplain; [|discriminate Hget].
    apply validateSchema_Return.
    + intros k x Hin. destruct (Hkeys k x Hin) as [-> | Hinh].
      * reflexivity.
      * unfold JS.has. destruct (JS.own k emptySchema); [reflexivity|exact Hinh].
    + unfold emptySchema. rewrite mapValues_cons, mapValues_nil.
      cbn [API.validateSchemaField Schemas.boolean]. rewrite Hget. reflexivity.
Qed.

Lemma emptySchema_returns_the_sentinel_witness :
  API.validateSchema (Some emptySchema)
    (VObj [("valueOf", VNum 0); ("isEmptyResponse", VBool true)]) ""
  = Return EmptyResponseValue.
Proof.
  apply (proj2 (emptySchema_returns_the_sentinel
                  (VObj [("valueOf", VNum 0); ("isEmptyResponse", VBool true)])
                  "" EmptyResponseValue)).
  split; [reflexivity|]. split; [|split; reflexivity].
  intros k x [Heq|[Heq|[]]]; inversion Heq; subst.
  - right. reflexivity.
  - left. reflexivity.
Defined.
